(** * Permutation test of the chronic-back-pain notebook

    A shallow embedding of the code cells of
    [DecisionScience-03-Session-ChronicPain]: the test statistic
    [difference_of_means_abs], one simulated relabelling
    [one_simulated_difference], the repetition loop and the empirical
    P-value, together with the pandas operations those cells call.

    Numbers: pandas holds the 0/1 results and the group means as float64;
    here they are exact rationals ([Q]), compared with [==].  Python's
    [int] (the repetition count) is [Z].

    Frames: a [DataFrame] is its ordered list of named, typed columns.  The
    row index is pandas' default [RangeIndex] (what [read_csv] and
    [reset_index] produce), so it is left implicit and rows are addressed by
    position.

    Randomness: numpy's global generator is an explicit stream of draws that
    [sample] consumes. *)

From Stdlib Require Import String Ascii ZArith QArith Qabs Lia Lqa Bool Arith
  List Permutation Sorted.
From Stdlib Require Floats.PrimFloat Uint63.
Import ListNotations.

Local Open Scope string_scope.
Local Open Scope list_scope.
Local Open Scope Q_scope.

(** ** Exceptions and results *)

Inductive exn : Type :=
| KeyError (key : string)
| IndexError
| ValueError
| ZeroDivisionError.

Inductive result (A : Type) : Type :=
| Ok (a : A)
| Raise (e : exn).

Arguments Ok {A} a.
Arguments Raise {A} e.

(** ** Data frames *)

Inductive column : Type :=
| NumCol (xs : list Q)
| StrCol (xs : list string).

Definition DataFrame : Type := list (string * column).

Definition col_len (c : column) : nat :=
  match c with
  | NumCol xs => length xs
  | StrCol xs => length xs
  end.

(** [df.shape[0]] *)
Definition shape0 (df : DataFrame) : nat :=
  match df with
  | [] => 0%nat
  | (_, c) :: _ => col_len c
  end.

(** [name in df] *)
Definition has_col (df : DataFrame) (name : string) : bool :=
  existsb (fun p => String.eqb (fst p) name) df.

(** [df[name]] *)
Fixpoint getitem (df : DataFrame) (name : string) : result column :=
  match df with
  | [] => Raise (KeyError name)
  | (n, c) :: rest => if String.eqb n name then Ok c else getitem rest name
  end.

(** [df[name] = c]: an existing column is overwritten in place, a new one is
    appended after the others. *)
Fixpoint setitem (df : DataFrame) (name : string) (c : column) : DataFrame :=
  match df with
  | [] => [(name, c)]
  | (n, c0) :: rest =>
      if String.eqb n name then (n, c) :: rest
      else (n, c0) :: setitem rest name c
  end.

(** [df.drop(name, axis=1)]: a new frame; the receiver is left alone. *)
Definition drop (df : DataFrame) (name : string) : result DataFrame :=
  if has_col df name
  then Ok (filter (fun p => negb (String.eqb (fst p) name)) df)
  else Raise (KeyError name).

(** Rows at the given positions, in that order ([DataFrame.take]). *)
Definition take_col (locs : list nat) (c : column) : column :=
  match c with
  | NumCol xs => NumCol (map (fun i => nth i xs 0) locs)
  | StrCol xs => StrCol (map (fun i => nth i xs EmptyString) locs)
  end.

Definition take (locs : list nat) (df : DataFrame) : DataFrame :=
  map (fun p => (fst p, take_col locs (snd p))) df.

(** [reset_index()] of a frame whose index is [old_index]: the old index
    becomes the first column, called [index], or [level_0] when [index] is
    taken; the frame gets a fresh RangeIndex. *)
Definition reset_index (old_index : list nat) (df : DataFrame)
  : result DataFrame :=
  let idx := NumCol (map (fun i => inject_Z (Z.of_nat i)) old_index) in
  if negb (has_col df "index") then Ok (("index", idx) :: df)
  else if negb (has_col df "level_0") then Ok (("level_0", idx) :: df)
  else Raise ValueError.

(** ** groupby(...).mean() *)

Fixpoint Qsum (xs : list Q) : Q :=
  match xs with
  | [] => 0
  | x :: rest => x + Qsum rest
  end.

Definition mean (xs : list Q) : Q :=
  Qsum xs / inject_Z (Z.of_nat (length xs)).

Section GroupBy.
Context {K : Type} (eqb leb : K -> K -> bool).

(** Insertion into the sorted list of distinct group keys. *)
Fixpoint insert_key (k : K) (ks : list K) : list K :=
  match ks with
  | [] => [k]
  | x :: rest =>
      if eqb k x then ks
      else if leb k x then k :: ks
      else x :: insert_key k rest
  end.

(** The group keys: distinct values of the key column, sorted. *)
Definition group_keys (keys : list K) : list K :=
  fold_right insert_key [] keys.

(** The values of column [xs] in the rows whose key is [k]. *)
Definition group_values (k : K) (keys : list K) (xs : list Q) : list Q :=
  map snd (filter (fun p => eqb (fst p) k) (combine keys xs)).

(** One row per group, one mean per numeric column. *)
Definition group_means (keys : list K) (cols : list (list Q))
  : list (list Q) :=
  map (fun k => map (fun xs => mean (group_values k keys xs)) cols)
      (group_keys keys).
End GroupBy.

(** The columns [mean] aggregates: the numeric ones, the key excluded.  The
    pandas of the notebook's Python 3.7 drops the columns it cannot average,
    such as a column of labels, from the result. *)
Fixpoint numeric_columns (df : DataFrame) (key : string) : list (list Q) :=
  match df with
  | [] => []
  | (n, c) :: rest =>
      if String.eqb n key then numeric_columns rest key
      else match c with
           | NumCol xs => xs :: numeric_columns rest key
           | StrCol _ => numeric_columns rest key
           end
  end.

(** [df.groupby(key).mean()], as the rows of the resulting frame in the
    order of the sorted group keys. *)
Definition groupby_mean (df : DataFrame) (key : string)
  : result (list (list Q)) :=
  match getitem df key with
  | Raise e => Raise e
  | Ok (StrCol keys) =>
      Ok (group_means String.eqb String.leb keys (numeric_columns df key))
  | Ok (NumCol keys) =>
      Ok (group_means Qeq_bool Qle_bool keys (numeric_columns df key))
  end.

(** Positional access: [.iloc(0)[i]] on the rows and, the columns being named
    by strings, [[i]] on a row. *)
Definition iloc {A : Type} (l : list A) (i : nat) : result A :=
  match nth_error l i with
  | Some a => Ok a
  | None => Raise IndexError
  end.

(** ** groupby(...).count() *)

Section GroupCount.
Context {K : Type} (eqb : K -> K -> bool).

(** The number of entries of a column in the rows whose key is [k]. *)
Definition group_count {A : Type} (k : K) (keys : list K) (xs : list A)
  : nat :=
  length (filter (fun p => eqb (fst p) k) (combine keys xs)).

Definition col_group_count (k : K) (keys : list K) (c : column) : nat :=
  match c with
  | NumCol xs => group_count k keys xs
  | StrCol xs => group_count k keys xs
  end.
End GroupCount.

(** The columns [count] reports on: all but the key. *)
Fixpoint other_columns (df : DataFrame) (key : string) : list column :=
  match df with
  | [] => []
  | (n, c) :: rest =>
      if String.eqb n key then other_columns rest key
      else c :: other_columns rest key
  end.

(** [df.groupby(key).count()], as the rows of the resulting frame in the
    order of the sorted group keys. *)
Definition groupby_count (df : DataFrame) (key : string)
  : result (list (list nat)) :=
  match getitem df key with
  | Raise e => Raise e
  | Ok (StrCol keys) =>
      Ok (map (fun k => map (col_group_count String.eqb k keys)
                            (other_columns df key))
              (group_keys String.eqb String.leb keys))
  | Ok (NumCol keys) =>
      Ok (map (fun k => map (col_group_count Qeq_bool k keys)
                            (other_columns df key))
              (group_keys Qeq_bool Qle_bool keys))
  end.

(** ** The test statistic *)

Definition rbind {A B : Type} (r : result A) (k : A -> result B) : result B :=
  match r with
  | Ok a => k a
  | Raise e => Raise e
  end.

Notation "'try' x <- r 'in' k" := (rbind r (fun x => k))
  (at level 10, x name, r at level 100, k at level 200).

(** [[
def difference_of_means_abs(df, group_label):
    one_value = df.groupby(group_label).mean().iloc(0)[0][0]
    another_value = df.groupby(group_label).mean().iloc(0)[1][0]
    observed_diff = abs(one_value-another_value)
    return observed_diff
]] *)
Definition difference_of_means_abs (df : DataFrame) (group_label : string)
  : result Q :=
  try means <- groupby_mean df group_label in
  try row0 <- iloc means 0 in
  try one_value <- iloc row0 0 in
  try means' <- groupby_mean df group_label in
  try row1 <- iloc means' 1 in
  try another_value <- iloc row1 0 in
  let observed_diff := Qabs (one_value - another_value) in
  Ok observed_diff.

(** ** Random sampling

    The generator is the list of the draws it has yet to give; an exhausted
    one gives 0. *)

Definition rng : Type := list nat.

Definition next (g : rng) : nat * rng :=
  match g with
  | [] => (0%nat, [])
  | x :: g' => (x, g')
  end.

Fixpoint remove_at {A : Type} (i : nat) (l : list A) : list A :=
  match l, i with
  | [], _ => []
  | _ :: rest, O => rest
  | x :: rest, S j => x :: remove_at j rest
  end.

(** [n] draws without replacement from [pool]. *)
Fixpoint draw (n : nat) (pool : list nat) (g : rng) : list nat * rng :=
  match n with
  | O => ([], g)
  | S m =>
      let (x, g1) := next g in
      let i := (x mod length pool)%nat in
      let (rest, g2) := draw m (remove_at i pool) g1 in
      (nth i pool 0%nat :: rest, g2)
  end.

(** The row positions [df.sample(n=n, replace=False)] picks among [n]
    rows: each position once, in the order drawn. *)
Definition sample_locs (n : nat) (g : rng) : list nat * rng :=
  draw n (seq 0 n) g.

(** ** The notebook state

    The frame bound to [bta_df], which the functions receive by reference,
    and the random generator.  A computation returns a result or raises,
    and leaves the state it reached either way. *)

Record world : Type := mkWorld { bta_df : DataFrame; random_state : rng }.

Definition M (A : Type) : Type := world -> result A * world.

Definition ret {A : Type} (a : A) : M A := fun w => (Ok a, w).

Definition bind {A B : Type} (m : M A) (k : A -> M B) : M B :=
  fun w =>
    match m w with
    | (Ok a, w') => k a w'
    | (Raise e, w') => (Raise e, w')
    end.

Definition lift {A : Type} (r : result A) : M A := fun w => (r, w).

Definition get_df : M DataFrame := fun w => (Ok (bta_df w), w).

Definition set_df (df : DataFrame) : M unit :=
  fun w => (Ok tt, mkWorld df (random_state w)).

Definition sample (n : nat) : M (list nat) :=
  fun w =>
    let (locs, g) := sample_locs n (random_state w) in
    (Ok locs, mkWorld (bta_df w) g).

Notation "x <- m ;; k" := (bind m (fun x => k))
  (at level 61, m at next level, right associativity).
Notation "m ;;; k" := (bind m (fun _ => k))
  (at level 61, right associativity).

(** [[
def one_simulated_difference(df, group_label):
    temp_df = df.sample(n=df.shape[0], replace=False).reset_index()
    df['Shuffled Label'] = temp_df[group_label]
    df = df.drop(group_label, axis=1)
    return difference_of_means_abs(df, 'Shuffled Label')
]]
    [df] is the caller's frame: the column assignment writes into it, and
    only then does [drop] bind [df] to a new frame.  [shuffled_frame] is the
    body up to that new frame, the relabelled dataset. *)
Definition shuffled_frame (group_label : string) : M DataFrame :=
  df <- get_df ;;
  locs <- sample (shape0 df) ;;
  temp_df <- lift (reset_index locs (take locs df)) ;;
  shuffled <- lift (getitem temp_df group_label) ;;
  set_df (setitem df "Shuffled Label" shuffled) ;;;
  df' <- get_df ;;
  lift (drop df' group_label).

Definition one_simulated_difference (group_label : string) : M Q :=
  df <- shuffled_frame group_label ;;
  lift (difference_of_means_abs df "Shuffled Label").

(** [[
differences = []
for i in np.arange(repetitions):
    new_difference = one_simulated_difference(bta_df, 'Group')
    differences.append(new_difference)
]] *)
Fixpoint simulate (n : nat) (group_label : string) (differences : list Q)
  : M (list Q) :=
  match n with
  | O => ret differences
  | S m =>
      new_difference <- one_simulated_difference group_label ;;
      simulate m group_label (differences ++ [new_difference])
  end.

(** [[
empirical_P = np.count_nonzero(differences <= observed_difference) / repetitions
]] *)
Definition count_nonzero (bs : list bool) : nat :=
  length (filter (fun b => b) bs).

Definition empirical_P (differences : list Q) (observed_difference : Q)
  (repetitions : Z) : result Q :=
  let count :=
    count_nonzero (map (fun d => Qle_bool d observed_difference) differences) in
  if (repetitions =? 0)%Z then Raise ZeroDivisionError
  else Ok (inject_Z (Z.of_nat count) / inject_Z repetitions).

(** The whole procedure, which the specification calls
    [runPermutationTest], in the order of the cells: the observed statistic,
    the simulated differences, the P-value. *)
Definition runPermutationTest (group_label : string) (repetitions : Z)
  : M (Q * list Q * Q) :=
  df <- get_df ;;
  observed_difference <- lift (difference_of_means_abs df group_label) ;;
  differences <- simulate (Z.to_nat repetitions) group_label [] ;;
  p <- lift (empirical_P differences observed_difference repetitions) ;;
  ret (observed_difference, differences, p).

(** ** Datasets *)

Record Observation : Type := mkObs { label : string; outcome : Q }.

Definition Dataset : Type := list Observation.

Definition labels (ds : Dataset) : list string := map label ds.
Definition outcomes (ds : Dataset) : list Q := map outcome ds.

(** The frame [read_csv] builds from a table of observations with a group
    column [g] and a result column [r]. *)
Definition frame_of (g r : string) (ds : Dataset) : DataFrame :=
  [(g, StrCol (labels ds)); (r, NumCol (outcomes ds))].

(** The observations of one group, from their outcomes. *)
Definition group (l : string) (xs : list Q) : Dataset :=
  map (fun x => mkObs l x) xs.

(** The dataset of the specification's scenario. *)
Definition scenario : Dataset :=
  group "A" [1; 1; 1; 0; 0]
  ++ group "B" [1; 0; 0; 0; 0; 0; 0; 0; 0; 0; 0; 0; 0; 0; 0; 0].

(** No relief in the control group, relief throughout the treatment
    group. *)
Definition control_treatment : Dataset :=
  group "Control" [0; 0] ++ group "Treatment" [1; 1].

(** The mean of a group in binary64, as numpy computes it. *)
Definition float_mean (xs : list PrimFloat.float) : PrimFloat.float :=
  PrimFloat.div (fold_left PrimFloat.add xs PrimFloat.zero)
    (PrimFloat.of_uint63 (Uint63.of_Z (Z.of_nat (length xs)))).

(** * Vocabulary of the properties *)

Notation "'skeys'" := (group_keys String.eqb String.leb).
Notation "'svalues'" := (group_values String.eqb).

(** What [difference_of_means_abs] computes from a label column and the
    first result column (lemma [difference_of_means_abs_eq]). *)
Definition label_statistic (keys : list string) (xs : list Q) : result Q :=
  match skeys keys with
  | k1 :: k2 :: _ =>
      Ok (Qabs (mean (svalues k1 keys xs) - mean (svalues k2 keys xs)))
  | _ => Raise IndexError
  end.

Definition unit_interval (x : Q) : Prop := 0 <= x /\ x <= 1.

(** The number of distinct labels of a dataset. *)
Definition n_groups (ds : Dataset) : nat :=
  length (nodup string_dec (labels ds)).

(** A valid dataset has exactly two groups. *)
Definition valid_dataset (ds : Dataset) : Prop := n_groups ds = 2%nat.

(** Every outcome is 0 or 1. *)
Definition binary_outcomes (ds : Dataset) : bool :=
  forallb (fun o => Qeq_bool (outcome o) 0 || Qeq_bool (outcome o) 1) ds.

(** [g] names the group column and [r] the result column of the loaded
    table.  The names must not collide with each other or with the column
    the simulation writes, and must leave [reset_index] a name for the old
    index. *)
Definition names_ok (g r : string) : bool :=
  negb (String.eqb g r)
  && negb (String.eqb g "Shuffled Label")
  && negb (String.eqb r "Shuffled Label")
  && negb (has_col (frame_of g r []) "index"
           && has_col (frame_of g r []) "level_0").

(** The caller's frame once a simulation has written its column. *)
Definition relabelled (g r : string) (ds : Dataset) (sl : list string)
  : DataFrame :=
  frame_of g r ds ++ [("Shuffled Label", StrCol sl)].

(** The transient frame the statistic of one simulation is computed on. *)
Definition shuffled (r : string) (ds : Dataset) (sl : list string)
  : DataFrame :=
  [(r, NumCol (outcomes ds)); ("Shuffled Label", StrCol sl)].

(** The states of the caller's frame during a run: as loaded, or carrying
    the column of the latest simulation. *)
Inductive holds (g r : string) (ds : Dataset) : DataFrame -> Prop :=
| holds_loaded : holds g r ds (frame_of g r ds)
| holds_relabelled sl : holds g r ds (relabelled g r ds sl).

(** The labels a simulation assigns, from the random state it starts in. *)
Definition shuffle_labels (ds : Dataset) (rs : rng) : list string :=
  map (fun i => nth i (labels ds) EmptyString)
      (fst (sample_locs (length ds) rs)).

(** A value one relabelling of [ds] can give. *)
Definition produced (ds : Dataset) (d : Q) : Prop :=
  exists sl, Permutation sl (labels ds)
             /\ label_statistic sl (outcomes ds) = Ok d.

(** [f'] has the rows and the columns of [f], the column
    [Shuffled Label] possibly apart. *)
Definition same_dataset (f f' : DataFrame) : Prop :=
  shape0 f' = shape0 f
  /\ forall name, name <> "Shuffled Label" -> getitem f' name = getitem f name.

(** Exchanging the labels [a] and [b]. *)
Definition swap_label (a b l : string) : string :=
  if String.eqb l a then b else if String.eqb l b then a else l.

Definition swap_groups (a b : string) (ds : Dataset) : Dataset :=
  map (fun o => mkObs (swap_label a b (label o)) (outcome o)) ds.

(** Every label of [l] is [lo] or [hi]. *)
Definition two_valued (lo hi : string) (l : list string) : Prop :=
  forall x, In x l -> x = lo \/ x = hi.

(** The P-value as the text of the notebook and the specification give it:
    the proportion of the simulated statistics that are equal to or larger
    than the observed statistic. *)
Definition proportion_at_least (differences : list Q) (observed : Q)
  (repetitions : Z) : Q :=
  inject_Z (Z.of_nat
    (count_nonzero (map (fun d => Qle_bool observed d) differences)))
  / inject_Z repetitions.

(** ** Vocabulary of the further results *)

Definition str_lt (a b : string) : Prop := String.compare a b = Lt.

(** The outcomes of the observations labelled [k]. *)
Definition group_outcomes (k : string) (ds : Dataset) : list Q :=
  outcomes (filter (fun o => String.eqb (label o) k) ds).

(** Results that agree: the same exception, or equal numbers. *)
Definition same_result (r1 r2 : result Q) : Prop :=
  match r1, r2 with
  | Ok a, Ok b => a == b
  | Raise e1, Raise e2 => e1 = e2
  | _, _ => False
  end.

(** The number of 1s of a list, and their proportion. *)
Definition ones (xs : list Q) : nat :=
  length (filter (fun x => Qeq_bool x 1) xs).

Definition proportion (xs : list Q) : Q :=
  inject_Z (Z.of_nat (ones xs)) / inject_Z (Z.of_nat (length xs)).

(** [ks] lists the distinct labels of [l] in increasing order. *)
Definition sorted_labels (ks l : list string) : Prop :=
  StronglySorted (fun a b => String.ltb a b = true) ks
  /\ forall x, In x ks <-> In x l.

(** The dataset with the labels [sl] on its observations, in order. *)
Definition relabel (sl : list string) (ds : Dataset) : Dataset :=
  map (fun p => mkObs (fst p) (outcome (snd p))) (combine sl ds).

(** The number of simulated statistics equal to the observed one. *)
Definition ties (differences : list Q) (observed : Q) : nat :=
  count_nonzero (map (fun d => Qeq_bool d observed) differences).

(** The caller's frame after at least one trial. *)
Definition written (g r : string) (ds : Dataset) (f : DataFrame) : Prop :=
  exists sl, f = relabelled g r ds sl /\ Permutation sl (labels ds).

Definition three_groups : Dataset :=
  group "C" [0; 0] ++ group "A" [1; 0] ++ group "B" [1; 1].


(** * Properties *)

(** ** Sampling without replacement *)

Lemma remove_at_length {A : Type} (i : nat) (l : list A) :
  (i < length l)%nat -> length (remove_at i l) = pred (length l).
Proof.
  revert i; induction l as [|a l IH]; intros [|i] H; simpl in *; try lia.
  rewrite IH by lia. lia.
Qed.

Lemma remove_at_perm {A : Type} (d : A) (i : nat) (l : list A) :
  (i < length l)%nat -> Permutation (nth i l d :: remove_at i l) l.
Proof.
  revert i; induction l as [|a l IH]; intros [|i] H; simpl in *; try lia.
  - apply Permutation_refl.
  - eapply perm_trans; [apply perm_swap|].
    apply perm_skip, IH. lia.
Qed.

Lemma draw_perm (n : nat) :
  forall pool g, length pool = n -> Permutation (fst (draw n pool g)) pool.
Proof.
  induction n as [|n IH]; intros pool g Hlen; simpl.
  - destruct pool; [apply perm_nil | discriminate].
  - destruct (next g) as [x g1].
    assert (Hi : (x mod length pool < length pool)%nat)
      by (apply Nat.mod_upper_bound; lia).
    specialize (IH (remove_at (x mod length pool) pool) g1).
    destruct (draw n (remove_at (x mod length pool) pool) g1) as [rest g2].
    simpl in *.
    eapply perm_trans; [|apply (remove_at_perm 0%nat _ _ Hi)].
    apply perm_skip, IH.
    rewrite remove_at_length by exact Hi. lia.
Qed.

Lemma sample_locs_perm (n : nat) (g : rng) :
  Permutation (fst (sample_locs n g)) (seq 0 n).
Proof. apply draw_perm, length_seq. Qed.

(** Every order of the rows is the outcome of some random state. *)
Lemma draw_complete (p : list nat) :
  forall pool, Permutation p pool ->
    exists g, draw (length p) pool g = (p, []).
Proof.
  induction p as [|x p IH]; intros pool Hp.
  - exists []. reflexivity.
  - assert (Hin : In x pool) by (apply (Permutation_in _ Hp); now left).
    destruct (In_nth pool x 0%nat Hin) as (i & Hi & Hnth).
    assert (Hrest : Permutation p (remove_at i pool)).
    { apply Permutation_cons_inv with (a := x).
      rewrite <- Hnth at 2.
      eapply perm_trans; [exact Hp|].
      apply Permutation_sym, remove_at_perm, Hi. }
    destruct (IH _ Hrest) as [g Hg].
    exists (i :: g). cbn [length draw next].
    rewrite (Nat.mod_small i (length pool) Hi), Hg, Hnth. reflexivity.
Qed.

Lemma sample_locs_complete (n : nat) (p : list nat) :
  Permutation p (seq 0 n) -> exists g, sample_locs n g = (p, []).
Proof.
  intros Hp. unfold sample_locs.
  assert (Hl : length p = n)
    by (rewrite (Permutation_length Hp); apply length_seq).
  destruct (draw_complete p (seq 0 n) Hp) as [g Hg].
  exists g. rewrite Hl in Hg. exact Hg.
Qed.

Lemma map_nth_seq_id {A : Type} (d : A) (xs : list A) :
  map (fun i => nth i xs d) (seq 0 (length xs)) = xs.
Proof.
  induction xs as [|a xs IH]; simpl; [reflexivity|].
  f_equal. rewrite <- seq_shift, map_map. exact IH.
Qed.

Lemma take_perm {A : Type} (d : A) (locs : list nat) (xs : list A) :
  Permutation locs (seq 0 (length xs)) ->
  Permutation (map (fun i => nth i xs d) locs) xs.
Proof.
  intros H.
  apply (Permutation_map (fun i => nth i xs d)) in H.
  rewrite map_nth_seq_id in H. exact H.
Qed.

(** ** Group keys of a string column *)

Lemma insert_key_in (k : string) (ks : list string) :
  In k (insert_key String.eqb String.leb k ks).
Proof.
  induction ks as [|x ks IH]; simpl; [now left|].
  destruct (String.eqb_spec k x) as [->|Hne]; [now left|].
  destruct (String.leb k x); simpl; auto.
Qed.

Lemma insert_key_incl (k x : string) (ks : list string) :
  In x ks -> In x (insert_key String.eqb String.leb k ks).
Proof.
  induction ks as [|y ks IH]; simpl; [tauto|].
  intros H.
  destruct (String.eqb k y); [exact H|].
  destruct (String.leb k y); simpl; [now right|].
  destruct H as [H|H]; auto.
Qed.

Lemma insert_key_elem (k x : string) (ks : list string) :
  In x (insert_key String.eqb String.leb k ks) -> x = k \/ In x ks.
Proof.
  induction ks as [|y ks IH]; simpl.
  - intros [H|[]]; auto.
  - destruct (String.eqb k y); [simpl; tauto|].
    destruct (String.leb k y); simpl; [intuition auto|].
    intros [H|H]; [auto|]. destruct (IH H); auto.
Qed.

Lemma group_keys_in (l : list string) (x : string) :
  In x (skeys l) <-> In x l.
Proof.
  induction l as [|a l IH]; simpl; [tauto|].
  split.
  - intros H. apply insert_key_elem in H. destruct H as [->|H]; [auto|].
    right. now apply IH.
  - intros [->|H]; [apply insert_key_in|].
    apply insert_key_incl. now apply IH.
Qed.

Lemma group_keys_const (a : string) (l : list string) :
  (forall x, In x l -> x = a) -> skeys l = [] \/ skeys l = [a].
Proof.
  induction l as [|b l IH]; intros H; simpl; [now left|].
  assert (b = a) as -> by (apply H; now left).
  right. destruct IH as [-> | ->]; [intros; apply H; now right| |]; simpl.
  - reflexivity.
  - now rewrite String.eqb_refl.
Qed.

Lemma two_members_length {A : Type} (l : list A) (a b : A) :
  In a l -> In b l -> a <> b -> (2 <= length l)%nat.
Proof.
  destruct l as [|x [|y l]]; simpl; try tauto; try lia.
  intros [<-|[]] [<-|[]] H. exfalso. now apply H.
Qed.

Lemma nodup_small (l : list string) :
  (length (nodup string_dec l) < 2)%nat ->
  forall x y, In x l -> In y l -> x = y.
Proof.
  intros Hlen x y Hx Hy.
  apply (nodup_In string_dec) in Hx, Hy.
  destruct (string_dec x y) as [e|n]; [exact e|].
  pose proof (two_members_length _ _ _ Hx Hy n). lia.
Qed.

Lemma nodup_two (l : list string) :
  (2 <= length (nodup string_dec l))%nat ->
  exists a b, In a l /\ In b l /\ a <> b.
Proof.
  intros Hlen.
  pose proof (NoDup_nodup string_dec l) as Hnd.
  assert (Hin : forall x, In x (nodup string_dec l) -> In x l)
    by (intros x; apply nodup_In).
  destruct (nodup string_dec l) as [|a [|b t]]; simpl in Hlen; try lia.
  exists a, b. repeat split.
  - apply Hin. now left.
  - apply Hin. right. now left.
  - intros ->. inversion Hnd as [|? ? Hn _]. apply Hn. now left.
Qed.

(** ** The statistic of a label column and a result column *)

Lemma Ok_inj {A : Type} (a b : A) : Ok a = Ok b -> a = b.
Proof. now intros [= ->]. Qed.

Lemma difference_of_means_abs_eq (df : DataFrame) (key : string)
  (keys : list string) (xs : list Q) (rest : list (list Q)) :
  getitem df key = Ok (StrCol keys) ->
  numeric_columns df key = xs :: rest ->
  difference_of_means_abs df key = label_statistic keys xs.
Proof.
  intros Hk Hn.
  unfold difference_of_means_abs, groupby_mean, group_means, label_statistic.
  rewrite Hk, Hn.
  destruct (skeys keys) as [|k1 [|k2 t]]; reflexivity.
Qed.

Lemma label_statistic_ok (keys : list string) (xs : list Q) (a b : string) :
  In a keys -> In b keys -> a <> b ->
  exists q, label_statistic keys xs = Ok q.
Proof.
  intros Ha Hb Hab.
  apply group_keys_in in Ha, Hb.
  pose proof (two_members_length _ _ _ Ha Hb Hab) as Hlen.
  unfold label_statistic.
  destruct (skeys keys) as [|k1 [|k2 t]]; simpl in Hlen; try lia.
  eexists; reflexivity.
Qed.

Lemma label_statistic_raise (keys : list string) (xs : list Q) :
  (forall x y, In x keys -> In y keys -> x = y) ->
  label_statistic keys xs = Raise IndexError.
Proof.
  intros H. unfold label_statistic.
  destruct keys as [|a keys]; [reflexivity|].
  destruct (group_keys_const a (a :: keys)) as [-> | ->]; try reflexivity.
  intros x Hx. apply H; [exact Hx | now left].
Qed.

Lemma label_statistic_nonneg (keys : list string) (xs : list Q) (q : Q) :
  label_statistic keys xs = Ok q -> 0 <= q.
Proof.
  unfold label_statistic.
  destruct (skeys keys) as [|k1 [|k2 t]]; try discriminate.
  intros H. apply Ok_inj in H. subst q. apply Qabs_nonneg.
Qed.

(** ** Means of 0/1 values *)

Lemma Qsum_bounds (xs : list Q) :
  Forall unit_interval xs ->
  0 <= Qsum xs /\ Qsum xs <= inject_Z (Z.of_nat (length xs)).
Proof.
  induction 1 as [|x xs [Hx0 Hx1] _ [IH0 IH1]]; simpl Qsum.
  - simpl. split; apply Qle_refl.
  - change (length (x :: xs)) with (S (length xs)).
    rewrite Nat2Z.inj_succ. unfold Z.succ. rewrite inject_Z_plus.
    change (inject_Z 1) with 1. split; lra.
Qed.

Lemma mean_bounds (xs : list Q) :
  Forall unit_interval xs -> unit_interval (mean xs).
Proof.
  intros H. destruct (Qsum_bounds xs H) as [H0 H1].
  unfold mean, unit_interval.
  destruct xs as [|x xs].
  - simpl. split; [apply Qle_refl | discriminate].
  - set (n := inject_Z (Z.of_nat (length (x :: xs)))) in *.
    assert (Hn : 0 < n).
    { unfold n. change 0 with (inject_Z 0). rewrite <- Zlt_Qlt.
      simpl length. lia. }
    split.
    + apply Qle_shift_div_l; [exact Hn | lra].
    + apply Qle_shift_div_r; [exact Hn | lra].
Qed.

Lemma group_values_Forall (P : Q -> Prop) (k : string) (keys : list string)
  (xs : list Q) :
  Forall P xs -> Forall P (svalues k keys xs).
Proof.
  intros H. unfold group_values.
  rewrite Forall_forall in *. intros x Hx.
  apply in_map_iff in Hx. destruct Hx as [[k' x'] [<- Hin]].
  apply filter_In in Hin. destruct Hin as [Hin _].
  apply in_combine_r in Hin. apply H, Hin.
Qed.

Lemma label_statistic_le_1 (keys : list string) (xs : list Q) (q : Q) :
  Forall unit_interval xs -> label_statistic keys xs = Ok q -> q <= 1.
Proof.
  intros Hxs. unfold label_statistic.
  destruct (skeys keys) as [|k1 [|k2 t]]; try discriminate.
  intros H. apply Ok_inj in H. subst q.
  pose proof (mean_bounds _ (group_values_Forall _ k1 keys xs Hxs)) as [? ?].
  pose proof (mean_bounds _ (group_values_Forall _ k2 keys xs Hxs)) as [? ?].
  apply Qabs_Qle_condition. split; lra.
Qed.

(** ** Frame operations *)

Lemma has_col_take (locs : list nat) (df : DataFrame) (name : string) :
  has_col (take locs df) name = has_col df name.
Proof.
  unfold has_col, take. induction df as [|[n c] df IH]; simpl; [reflexivity|].
  now rewrite IH.
Qed.

Lemma getitem_take (locs : list nat) (df : DataFrame) (name : string) :
  getitem (take locs df) name =
  try c <- getitem df name in Ok (take_col locs c).
Proof.
  induction df as [|[n c] df IH]; simpl; [reflexivity|].
  destruct (String.eqb n name); [reflexivity | exact IH].
Qed.

Lemma reset_index_ok (locs : list nat) (df : DataFrame) :
  has_col df "index" && has_col df "level_0" = false ->
  exists name idx, reset_index locs df = Ok ((name, idx) :: df)
                   /\ has_col df name = false.
Proof.
  intros H. unfold reset_index.
  destruct (has_col df "index") eqn:Hi; simpl.
  - destruct (has_col df "level_0") eqn:Hl; [discriminate|]. simpl.
    eexists _, _. split; [reflexivity | exact Hl].
  - eexists _, _. split; [reflexivity | exact Hi].
Qed.

Lemma getitem_fresh_cons (df : DataFrame) (fresh name : string) (c : column) :
  has_col df fresh = false -> has_col df name = true ->
  getitem ((fresh, c) :: df) name = getitem df name.
Proof.
  intros Hf Hn. simpl.
  destruct (String.eqb_spec fresh name) as [->|_]; [congruence | reflexivity].
Qed.

(** ** The notebook's frame *)

Section Notebook.
Variables g r : string.
Hypothesis Hnames : names_ok g r = true.

Ltac split_names :=
  unfold names_ok in Hnames;
  repeat (apply andb_prop in Hnames; destruct Hnames as [Hnames ?]).

Lemma names_gr : String.eqb g r = false.
Proof using Hnames. split_names. now apply negb_true_iff. Qed.

Lemma names_rg : String.eqb r g = false.
Proof using Hnames. rewrite String.eqb_sym. exact names_gr. Qed.

Lemma names_gS : String.eqb g "Shuffled Label" = false.
Proof using Hnames. split_names. now apply negb_true_iff. Qed.

Lemma names_rS : String.eqb r "Shuffled Label" = false.
Proof using Hnames. split_names. now apply negb_true_iff. Qed.

Lemma names_Sg : String.eqb "Shuffled Label" g = false.
Proof using Hnames. rewrite String.eqb_sym. exact names_gS. Qed.

Lemma names_index (ds : Dataset) (f : DataFrame) :
  holds g r ds f -> has_col f "index" && has_col f "level_0" = false.
Proof using Hnames.
  split_names.
  intros [|sl]; unfold relabelled, frame_of, has_col in *; simpl in *;
    rewrite ?orb_false_r in *; now apply negb_true_iff.
Qed.

Lemma observed_eq (ds : Dataset) (f : DataFrame) :
  holds g r ds f ->
  difference_of_means_abs f g = label_statistic (labels ds) (outcomes ds).
Proof using Hnames.
  intros [|sl]; apply difference_of_means_abs_eq with (rest := []);
    unfold relabelled, frame_of; cbn [app getitem numeric_columns];
    rewrite ?String.eqb_refl, ?names_rg, ?names_Sg; reflexivity.
Qed.

Lemma shuffled_eq (ds : Dataset) (sl : list string) :
  difference_of_means_abs (shuffled r ds sl) "Shuffled Label"
  = label_statistic sl (outcomes ds).
Proof using Hnames.
  apply difference_of_means_abs_eq with (rest := []);
    unfold shuffled; cbn [getitem numeric_columns];
    rewrite ?names_rS, ?String.eqb_refl; reflexivity.
Qed.

Lemma shuffled_frame_spec (ds : Dataset) (f : DataFrame) (rs : rng) :
  holds g r ds f ->
  shuffled_frame g (mkWorld f rs)
  = (Ok (shuffled r ds (shuffle_labels ds rs)),
     mkWorld (relabelled g r ds (shuffle_labels ds rs))
             (snd (sample_locs (length ds) rs))).
Proof using Hnames.
  intros Hf.
  assert (Hshape : shape0 f = length ds).
  { destruct Hf; cbn [relabelled frame_of app shape0 col_len];
      unfold labels; apply length_map. }
  assert (Hget : getitem f g = Ok (StrCol (labels ds))).
  { destruct Hf; cbn [relabelled frame_of app getitem];
      now rewrite String.eqb_refl. }
  assert (Hhas : has_col f g = true).
  { destruct Hf; cbn [relabelled frame_of app has_col existsb fst];
      now rewrite String.eqb_refl. }
  unfold shuffled_frame, bind, get_df, sample, lift, set_df, shuffle_labels.
  simpl bta_df. simpl random_state. rewrite Hshape.
  destruct (sample_locs (length ds) rs) as [locs rs'] eqn:Hs. simpl fst.
  destruct (reset_index_ok locs (take locs f)) as (name & idx & -> & Hfresh).
  { rewrite !has_col_take. now apply (names_index ds). }
  rewrite getitem_fresh_cons
    by (rewrite ?has_col_take; rewrite has_col_take in Hfresh; assumption).
  rewrite getitem_take, Hget.
  cbn [rbind take_col bta_df random_state snd].
  set (sl := map (fun i => nth i (labels ds) EmptyString) locs).
  assert (Hset : setitem f "Shuffled Label" (StrCol sl)
                 = relabelled g r ds sl).
  { destruct Hf; unfold relabelled, frame_of; cbn [app setitem];
      rewrite names_gS, names_rS, ?String.eqb_refl; reflexivity. }
  rewrite Hset. unfold drop, relabelled, frame_of, shuffled.
  cbn [app has_col existsb filter fst].
  rewrite String.eqb_refl, names_rg, names_Sg. reflexivity.
Qed.

Lemma one_simulated_difference_spec (ds : Dataset) (f : DataFrame)
  (rs : rng) :
  holds g r ds f ->
  one_simulated_difference g (mkWorld f rs)
  = (label_statistic (shuffle_labels ds rs) (outcomes ds),
     mkWorld (relabelled g r ds (shuffle_labels ds rs))
             (snd (sample_locs (length ds) rs))).
Proof using Hnames.
  intros Hf. unfold one_simulated_difference, bind.
  rewrite (shuffled_frame_spec ds f rs Hf). unfold lift.
  now rewrite shuffled_eq.
Qed.

Lemma shuffle_labels_perm (ds : Dataset) (rs : rng) :
  Permutation (shuffle_labels ds rs) (labels ds).
Proof.
  unfold shuffle_labels. apply take_perm.
  unfold labels. rewrite length_map. apply sample_locs_perm.
Qed.

Lemma simulate_inv (ds : Dataset) (n : nat) :
  forall acc f rs res w',
    holds g r ds f ->
    simulate n g acc (mkWorld f rs) = (res, w') ->
    holds g r ds (bta_df w')
    /\ forall diffs, res = Ok diffs ->
         exists new, diffs = acc ++ new /\ length new = n
                     /\ Forall (produced ds) new.
Proof using Hnames.
  induction n as [|n IH]; intros acc f rs res w' Hf Hrun.
  - cbn [simulate] in Hrun. unfold ret in Hrun.
    injection Hrun as <- <-. split; [exact Hf|].
    intros diffs Hd. apply Ok_inj in Hd. subst diffs.
    exists []. rewrite app_nil_r. repeat split. constructor.
  - cbn [simulate] in Hrun. unfold bind in Hrun.
    rewrite (one_simulated_difference_spec ds f rs Hf) in Hrun.
    destruct (label_statistic (shuffle_labels ds rs) (outcomes ds))
      as [d|e] eqn:Hd.
    + apply IH in Hrun; [|constructor].
      destruct Hrun as [Hh Hres]. split; [exact Hh|].
      intros diffs Hdiffs. destruct (Hres diffs Hdiffs) as (new & -> & Hl & Hp).
      exists (d :: new). rewrite <- app_assoc. repeat split.
      * simpl. now rewrite Hl.
      * constructor; [|exact Hp].
        exists (shuffle_labels ds rs). split; [|exact Hd].
        apply shuffle_labels_perm.
    + injection Hrun as <- <-. split; [constructor|]. discriminate.
Qed.

Lemma simulate_total (ds : Dataset) (a b : string) (n : nat) :
  In a (labels ds) -> In b (labels ds) -> a <> b ->
  forall acc f rs,
    holds g r ds f ->
    exists diffs w', simulate n g acc (mkWorld f rs) = (Ok diffs, w').
Proof using Hnames.
  intros Ha Hb Hab.
  induction n as [|n IH]; intros acc f rs Hf.
  - eexists _, _. reflexivity.
  - cbn [simulate]. unfold bind.
    rewrite (one_simulated_difference_spec ds f rs Hf).
    pose proof (Permutation_sym (shuffle_labels_perm ds rs)) as Hp.
    destruct (label_statistic_ok (shuffle_labels ds rs) (outcomes ds) a b)
      as [d ->]; [now apply (Permutation_in _ Hp)
                 | now apply (Permutation_in _ Hp) | exact Hab |].
    apply IH. constructor.
Qed.
End Notebook.

(** ** The run as a whole *)

Lemma runPermutationTest_unfold (g : string) (R : Z) (w : world) :
  runPermutationTest g R w =
  match difference_of_means_abs (bta_df w) g with
  | Raise e => (Raise e, w)
  | Ok obs =>
      match simulate (Z.to_nat R) g [] w with
      | (Raise e, w') => (Raise e, w')
      | (Ok diffs, w') =>
          match empirical_P diffs obs R with
          | Raise e => (Raise e, w')
          | Ok p => (Ok (obs, diffs, p), w')
          end
      end
  end.
Proof.
  unfold runPermutationTest, bind, get_df, lift, ret.
  destruct (difference_of_means_abs (bta_df w) g); [|reflexivity].
  destruct (simulate (Z.to_nat R) g [] w) as [[diffs|e] w']; [|reflexivity].
  destruct (empirical_P diffs a R); reflexivity.
Qed.

Lemma count_nonzero_le (bs : list bool) :
  (count_nonzero bs <= length bs)%nat.
Proof. apply filter_length_le. Qed.

Lemma empirical_P_bounds (diffs : list Q) (obs : Q) (R : Z) :
  (0 < R)%Z -> Z.of_nat (length diffs) = R ->
  exists p, empirical_P diffs obs R = Ok p /\ 0 <= p /\ p <= 1.
Proof.
  intros HR Hlen. unfold empirical_P.
  destruct (Z.eqb_spec R 0) as [->|_]; [lia|].
  eexists. split; [reflexivity|].
  set (c := count_nonzero (map (fun d => Qle_bool d obs) diffs)).
  assert (Hc : (Z.of_nat c <= R)%Z).
  { pose proof (count_nonzero_le (map (fun d => Qle_bool d obs) diffs)) as H.
    rewrite length_map in H. fold c in H. lia. }
  assert (H0 : 0 <= inject_Z (Z.of_nat c))
    by (change 0 with (inject_Z 0); rewrite <- Zle_Qle; lia).
  assert (H1 : inject_Z (Z.of_nat c) <= inject_Z R)
    by (rewrite <- Zle_Qle; exact Hc).
  assert (HRq : 0 < inject_Z R)
    by (change 0 with (inject_Z 0); rewrite <- Zlt_Qlt; exact HR).
  split.
  - apply Qle_shift_div_l; [exact HRq | lra].
  - apply Qle_shift_div_r; [exact HRq | lra].
Qed.

(** ** Valid datasets *)

Lemma binary_unit_interval (ds : Dataset) :
  binary_outcomes ds = true -> Forall unit_interval (outcomes ds).
Proof.
  unfold binary_outcomes, outcomes. rewrite forallb_forall, Forall_forall.
  intros H x Hx. apply in_map_iff in Hx. destruct Hx as [o [<- Ho]].
  specialize (H o Ho). apply orb_prop in H. unfold unit_interval.
  destruct H as [H|H]; apply Qeq_bool_eq in H; rewrite H; split;
    try apply Qle_refl; discriminate.
Qed.

Lemma produced_nonneg (ds : Dataset) (d : Q) : produced ds d -> 0 <= d.
Proof. intros (sl & _ & H). eapply label_statistic_nonneg, H. Qed.

Lemma produced_le_1 (ds : Dataset) (d : Q) :
  binary_outcomes ds = true -> produced ds d -> d <= 1.
Proof.
  intros Hb (sl & _ & H).
  eapply label_statistic_le_1; [apply binary_unit_interval, Hb | exact H].
Qed.

Lemma run_valid (g r : string) (ds : Dataset) (n : nat) (rs : rng) :
  names_ok g r = true -> (2 <= n_groups ds)%nat ->
  exists obs diffs w',
    difference_of_means_abs (frame_of g r ds) g = Ok obs
    /\ simulate n g [] (mkWorld (frame_of g r ds) rs) = (Ok diffs, w')
    /\ length diffs = n
    /\ Forall (produced ds) diffs.
Proof.
  intros Hn Hv.
  destruct (nodup_two (labels ds) Hv) as (a & b & Ha & Hb & Hab).
  pose proof (holds_loaded g r ds) as Hf.
  rewrite (observed_eq g r Hn ds _ Hf).
  destruct (label_statistic_ok (labels ds) (outcomes ds) a b Ha Hb Hab)
    as [obs ->].
  destruct (simulate_total g r Hn ds a b n Ha Hb Hab [] _ rs Hf)
    as (diffs & w' & Hrun).
  exists obs, diffs, w'. split; [reflexivity|]. split; [exact Hrun|].
  destruct (simulate_inv g r Hn ds n [] _ rs _ _ Hf Hrun) as [_ Hres].
  destruct (Hres diffs eq_refl) as (new & -> & Hl & Hp). now split.
Qed.

(** ** The caller's frame *)

Lemma holds_same_dataset (g r : string) (ds : Dataset) (f f' : DataFrame) :
  names_ok g r = true ->
  holds g r ds f -> holds g r ds f' -> same_dataset f f'.
Proof.
  intros Hn Hf Hf'.
  assert (H : forall h, holds g r ds h -> same_dataset (frame_of g r ds) h).
  { intros h [|sl]; split; try reflexivity.
    intros name Hne. unfold relabelled, frame_of. cbn [app getitem].
    destruct (String.eqb g name); [reflexivity|].
    destruct (String.eqb r name); [reflexivity|].
    destruct (String.eqb_spec "Shuffled Label" name) as [e|_];
      [now elim Hne | reflexivity]. }
  destruct (H f Hf) as [Hs Hc], (H f' Hf') as [Hs' Hc'].
  split; [congruence|].
  intros name Hne. now rewrite Hc', Hc.
Qed.

(** ** Exchanging the two groups *)

Lemma two_valued_tail (lo hi x : string) (l : list string) :
  two_valued lo hi (x :: l) -> (x = lo \/ x = hi) /\ two_valued lo hi l.
Proof.
  intros H. split; [apply H; now left|]. intros y Hy. apply H. now right.
Qed.

Lemma skeys_two_valued (lo hi : string) (l : list string) :
  lo <> hi -> String.leb lo hi = true -> two_valued lo hi l ->
  skeys l = (if existsb (String.eqb lo) l then [lo] else [])
            ++ (if existsb (String.eqb hi) l then [hi] else []).
Proof.
  intros Hne Hle.
  assert (Hlh : String.eqb lo hi = false) by now apply String.eqb_neq.
  assert (Hhl : String.eqb hi lo = false)
    by (rewrite String.eqb_sym; exact Hlh).
  assert (Hge : String.leb hi lo = false).
  { destruct (String.leb hi lo) eqn:E; [|reflexivity].
    elim Hne. now apply String.leb_antisym. }
  induction l as [|x l IH]; intros Hl; [reflexivity|].
  apply two_valued_tail in Hl. destruct Hl as [Hx Hl].
  cbn [group_keys fold_right existsb].
  change (fold_right (insert_key String.eqb String.leb) [] l) with (skeys l).
  rewrite (IH Hl).
  destruct Hx as [-> | ->]; rewrite String.eqb_refl, ?Hlh, ?Hhl;
    cbn [orb];
    destruct (existsb (String.eqb lo) l), (existsb (String.eqb hi) l);
    cbn [app insert_key];
    rewrite ?String.eqb_refl, ?Hlh, ?Hhl, ?Hle, ?Hge; reflexivity.
Qed.

Lemma swap_label_l (a b : string) : swap_label a b a = b.
Proof. unfold swap_label. now rewrite String.eqb_refl. Qed.

Lemma swap_label_r (a b : string) : swap_label a b b = a.
Proof.
  unfold swap_label. rewrite String.eqb_refl.
  now destruct (String.eqb_spec b a) as [->|_].
Qed.

Lemma swap_label_existsb (lo hi : string) (l : list string) :
  lo <> hi -> two_valued lo hi l ->
  existsb (String.eqb lo) (map (swap_label lo hi) l)
  = existsb (String.eqb hi) l
  /\ existsb (String.eqb hi) (map (swap_label lo hi) l)
     = existsb (String.eqb lo) l.
Proof.
  intros Hne.
  assert (Hlh : String.eqb lo hi = false) by now apply String.eqb_neq.
  assert (Hhl : String.eqb hi lo = false)
    by (rewrite String.eqb_sym; exact Hlh).
  induction l as [|x l IH]; intros Hl; [now split|].
  apply two_valued_tail in Hl. destruct Hl as [Hx Hl].
  destruct (IH Hl) as [IH1 IH2]. cbn [map existsb]. rewrite IH1, IH2.
  unfold swap_label.
  destruct Hx as [-> | ->];
    rewrite ?String.eqb_refl, ?Hlh, ?Hhl, ?String.eqb_refl; now split.
Qed.

Lemma svalues_swap (lo hi : string) (l : list string) :
  lo <> hi -> two_valued lo hi l ->
  forall xs,
    svalues lo (map (swap_label lo hi) l) xs = svalues hi l xs
    /\ svalues hi (map (swap_label lo hi) l) xs = svalues lo l xs.
Proof.
  intros Hne.
  assert (Hlh : String.eqb lo hi = false) by now apply String.eqb_neq.
  assert (Hhl : String.eqb hi lo = false)
    by (rewrite String.eqb_sym; exact Hlh).
  induction l as [|x l IH]; intros Hl xs; [now split|].
  apply two_valued_tail in Hl. destruct Hl as [Hx Hl].
  destruct xs as [|y xs]; [now split|].
  destruct (IH Hl xs) as [IH1 IH2].
  unfold group_values in *. cbn [map combine filter fst].
  destruct Hx as [-> | ->]; rewrite ?swap_label_l, ?swap_label_r;
    rewrite ?String.eqb_refl, ?Hlh, ?Hhl;
    cbn [map snd]; rewrite IH1, IH2; now split.
Qed.

Lemma two_valued_swap (lo hi : string) (l : list string) :
  two_valued lo hi l -> two_valued lo hi (map (swap_label lo hi) l).
Proof.
  intros H x Hx. apply in_map_iff in Hx. destruct Hx as [y [<- Hy]].
  unfold swap_label. destruct (H y Hy) as [-> | ->].
  - rewrite String.eqb_refl. now right.
  - destruct (String.eqb hi lo); [now right|].
    rewrite String.eqb_refl. now left.
Qed.

Lemma label_statistic_swap_ordered (lo hi : string) (l : list string)
  (xs : list Q) :
  lo <> hi -> String.leb lo hi = true -> two_valued lo hi l ->
  label_statistic (map (swap_label lo hi) l) xs = label_statistic l xs.
Proof.
  intros Hne Hle Hl. unfold label_statistic.
  rewrite (skeys_two_valued lo hi _ Hne Hle (two_valued_swap lo hi l Hl)).
  rewrite (skeys_two_valued lo hi l Hne Hle Hl).
  destruct (swap_label_existsb lo hi l Hne Hl) as [-> ->].
  destruct (existsb (String.eqb lo) l), (existsb (String.eqb hi) l);
    cbn [app]; try reflexivity.
  destruct (svalues_swap lo hi l Hne Hl xs) as [-> ->].
  now rewrite Qabs_Qminus.
Qed.

Lemma swap_label_comm (a b l : string) :
  a <> b -> swap_label a b l = swap_label b a l.
Proof.
  intros Hne. unfold swap_label.
  destruct (String.eqb_spec l a) as [Ha|Ha];
    destruct (String.eqb_spec l b) as [Hb|Hb]; try reflexivity.
  elim Hne. congruence.
Qed.

Lemma label_statistic_swap (a b : string) (l : list string) (xs : list Q) :
  a <> b -> two_valued a b l ->
  label_statistic (map (swap_label a b) l) xs = label_statistic l xs.
Proof.
  intros Hne Hl.
  destruct (String.leb_total a b) as [Hle|Hle].
  - now apply label_statistic_swap_ordered.
  - rewrite (map_ext _ _ (fun x => swap_label_comm a b x Hne)).
    apply label_statistic_swap_ordered; [congruence | exact Hle |].
    intros x Hx. destruct (Hl x Hx); auto.
Qed.

(** ** The scenario in binary64 *)

(** The arithmetic of the scenario in binary64: the rounded difference of the
    rounded means is the float nearest to 0.5375. *)
Lemma binary64_scenario :
  let one := PrimFloat.one in
  let zero := PrimFloat.zero in
  PrimFloat.eqb
    (PrimFloat.abs
       (PrimFloat.sub
          (float_mean [one; one; one; zero; zero])
          (float_mean (one :: repeat zero 15))))
    (PrimFloat.div (PrimFloat.of_uint63 (Uint63.of_Z 5375))
                   (PrimFloat.of_uint63 (Uint63.of_Z 10000)))
  = true.
Proof. vm_compute. reflexivity. Qed.

(** ** The order of the labels *)

Lemma ascii_compare_refl (c : ascii) : Ascii.compare c c = Eq.
Proof. apply N.compare_refl. Qed.

Lemma ascii_compare_lt_trans (a b c : ascii) :
  Ascii.compare a b = Lt -> Ascii.compare b c = Lt -> Ascii.compare a c = Lt.
Proof.
  unfold Ascii.compare. rewrite !N.compare_lt_iff. apply N.lt_trans.
Qed.

Lemma str_lt_trans (a b c : string) : str_lt a b -> str_lt b c -> str_lt a c.
Proof.
  unfold str_lt. revert b c.
  induction a as [|x a IH]; intros [|y b] [|z c]; cbn [String.compare];
    try discriminate; try reflexivity.
  destruct (Ascii.compare x y) eqn:Hxy; try discriminate.
  - apply Ascii.compare_eq_iff in Hxy. subst y.
    destruct (Ascii.compare x z); try discriminate; [apply IH | reflexivity].
  - intros _. destruct (Ascii.compare y z) eqn:Hyz; try discriminate.
    + apply Ascii.compare_eq_iff in Hyz. subst z. now rewrite Hxy.
    + now rewrite (ascii_compare_lt_trans x y z Hxy Hyz).
Qed.

Lemma str_compare_refl (a : string) : String.compare a a = Eq.
Proof.
  induction a as [|x a IH]; cbn [String.compare]; [reflexivity|].
  now rewrite ascii_compare_refl.
Qed.

Lemma str_lt_irrefl (a : string) : ~ str_lt a a.
Proof. unfold str_lt. now rewrite str_compare_refl. Qed.

Lemma leb_neq_lt (a b : string) :
  String.leb a b = true -> a <> b -> str_lt a b.
Proof.
  unfold String.leb, str_lt. intros H Hne.
  destruct (String.compare a b) eqn:E; try discriminate; [|reflexivity].
  elim Hne. now apply String.compare_eq_iff.
Qed.

Lemma leb_false_lt (a b : string) : String.leb a b = false -> str_lt b a.
Proof.
  unfold String.leb, str_lt. rewrite (String.compare_antisym b a).
  destruct (String.compare a b); try discriminate. reflexivity.
Qed.

Lemma str_lt_leb (a b : string) : str_lt a b -> String.leb a b = true.
Proof. unfold String.leb, str_lt. now intros ->. Qed.

Lemma insert_key_sorted (k : string) (ks : list string) :
  StronglySorted str_lt ks ->
  StronglySorted str_lt (insert_key String.eqb String.leb k ks).
Proof.
  induction 1 as [|x ks Hs IH Hx]; cbn [insert_key].
  - repeat constructor.
  - destruct (String.eqb_spec k x) as [->|Hne]; [now constructor|].
    destruct (String.leb k x) eqn:Hle.
    + assert (Hkx : str_lt k x) by now apply leb_neq_lt.
      constructor; [now constructor|].
      constructor; [exact Hkx|].
      eapply Forall_impl; [|exact Hx]. intros y. now apply str_lt_trans.
    + constructor; [exact IH|].
      rewrite Forall_forall in *. intros y Hy.
      apply insert_key_elem in Hy. destruct Hy as [->|Hy]; [|now apply Hx].
      now apply leb_false_lt.
Qed.

Lemma skeys_sorted (l : list string) : StronglySorted str_lt (skeys l).
Proof.
  induction l as [|x l IH]; cbn [group_keys fold_right]; [constructor|].
  now apply insert_key_sorted.
Qed.

Lemma sorted_NoDup (l : list string) : StronglySorted str_lt l -> NoDup l.
Proof.
  induction 1 as [|x l Hs IH Hx]; constructor; [|exact IH].
  intros Hin. rewrite Forall_forall in Hx.
  exact (str_lt_irrefl x (Hx x Hin)).
Qed.

Lemma sorted_unique (l1 : list string) :
  forall l2, StronglySorted str_lt l1 -> StronglySorted str_lt l2 ->
    (forall x, In x l1 <-> In x l2) -> l1 = l2.
Proof.
  induction l1 as [|a l1 IH]; intros [|b l2] H1 H2 Hin.
  - reflexivity.
  - destruct (proj2 (Hin b)); now left.
  - destruct (proj1 (Hin a)); now left.
  - apply StronglySorted_inv in H1, H2.
    destruct H1 as [H1 Ha], H2 as [H2 Hb].
    rewrite Forall_forall in Ha, Hb.
    assert (a = b) as <-.
    { destruct (proj1 (Hin a) (or_introl eq_refl)) as [e|Hab]; [now symmetry|].
      destruct (proj2 (Hin b) (or_introl eq_refl)) as [e|Hba]; [exact e|].
      elim (str_lt_irrefl a). apply str_lt_trans with b; auto. }
    f_equal. apply IH; [exact H1 | exact H2|].
    intros x. split; intros Hx.
    + destruct (proj1 (Hin x) (or_intror Hx)) as [<-|H]; [|exact H].
      elim (str_lt_irrefl a). now apply Ha.
    + destruct (proj2 (Hin x) (or_intror Hx)) as [<-|H]; [|exact H].
      elim (str_lt_irrefl a). now apply Hb.
Qed.

Lemma skeys_perm (l l' : list string) :
  Permutation l l' -> skeys l = skeys l'.
Proof.
  intros Hp. apply sorted_unique; try apply skeys_sorted.
  intros x. rewrite !group_keys_in.
  split; apply Permutation_in; [exact Hp | now apply Permutation_sym].
Qed.

Lemma skeys_length (l : list string) :
  length (skeys l) = length (nodup string_dec l).
Proof.
  apply Permutation_length, NoDup_Permutation.
  - apply sorted_NoDup, skeys_sorted.
  - apply NoDup_nodup.
  - intros x. rewrite group_keys_in, nodup_In. reflexivity.
Qed.

Lemma svalues_group_outcomes (k : string) (ds : Dataset) :
  svalues k (labels ds) (outcomes ds) = group_outcomes k ds.
Proof.
  unfold group_values, group_outcomes, labels, outcomes.
  induction ds as [|o ds IH]; [reflexivity|].
  cbn [map combine filter fst].
  destruct (String.eqb (label o) k); cbn [map snd]; now rewrite IH.
Qed.

Lemma str_lt_ltb (a b : string) : str_lt a b <-> String.ltb a b = true.
Proof.
  unfold str_lt, String.ltb.
  destruct (String.compare a b); split; congruence.
Qed.

Lemma existsb_eqb_In (a : string) (l : list string) :
  In a l -> existsb (String.eqb a) l = true.
Proof.
  intros H. apply existsb_exists. exists a. split; [exact H|].
  apply String.eqb_refl.
Qed.

Lemma label_statistic_two (a b : string) (ds : Dataset) :
  a <> b -> two_valued a b (labels ds) ->
  In a (labels ds) -> In b (labels ds) ->
  label_statistic (labels ds) (outcomes ds)
  = Ok (Qabs (mean (group_outcomes a ds) - mean (group_outcomes b ds))).
Proof.
  intros Hne Hl Ha Hb. unfold label_statistic.
  destruct (String.leb_total a b) as [Hle|Hle].
  - rewrite (skeys_two_valued a b _ Hne Hle Hl).
    rewrite (existsb_eqb_In a _ Ha), (existsb_eqb_In b _ Hb). cbn [app].
    now rewrite !svalues_group_outcomes.
  - assert (Hl' : two_valued b a (labels ds))
      by (intros x Hx; destruct (Hl x Hx); auto).
    rewrite (skeys_two_valued b a _ (not_eq_sym Hne) Hle Hl').
    rewrite (existsb_eqb_In a _ Ha), (existsb_eqb_In b _ Hb). cbn [app].
    rewrite !svalues_group_outcomes. now rewrite Qabs_Qminus.
Qed.

(** The two smallest labels head the group keys. *)
Lemma skeys_two_smallest (l : list string) :
  (2 <= length (nodup string_dec l))%nat ->
  exists k1 k2 rest,
    skeys l = k1 :: k2 :: rest
    /\ In k1 l /\ In k2 l /\ String.ltb k1 k2 = true
    /\ forall x, In x l -> x = k1 \/ x = k2 \/ String.ltb k2 x = true.
Proof.
  intros Hlen. rewrite <- skeys_length in Hlen.
  pose proof (skeys_sorted l) as Hs.
  assert (Hin : forall x, In x (skeys l) <-> In x l)
    by (intros x; apply group_keys_in).
  destruct (skeys l) as [|k1 [|k2 rest]]; cbn [length] in Hlen; try lia.
  exists k1, k2, rest. split; [reflexivity|].
  apply StronglySorted_inv in Hs. destruct Hs as [Hs H1].
  apply StronglySorted_inv in Hs. destruct Hs as [_ H2].
  rewrite Forall_forall in H1, H2.
  split; [apply Hin; now left|].
  split; [apply Hin; right; now left|].
  split; [apply str_lt_ltb, H1; now left|].
  intros x Hx. apply Hin in Hx.
  destruct Hx as [<-|[<-|Hx]]; auto.
  right. right. now apply str_lt_ltb, H2.
Qed.

Lemma Qsum_perm (xs ys : list Q) : Permutation xs ys -> Qsum xs == Qsum ys.
Proof.
  induction 1 as [|x xs ys _ IH|x y xs|xs ys zs _ IH1 _ IH2]; cbn [Qsum].
  - reflexivity.
  - now rewrite IH.
  - ring.
  - now rewrite IH1.
Qed.

Lemma mean_perm (xs ys : list Q) : Permutation xs ys -> mean xs == mean ys.
Proof.
  intros H. unfold mean.
  now rewrite (Qsum_perm _ _ H), (Permutation_length H).
Qed.

Lemma group_outcomes_perm (k : string) (ds ds' : Dataset) :
  Permutation ds ds' ->
  Permutation (group_outcomes k ds) (group_outcomes k ds').
Proof.
  intros H. unfold group_outcomes, outcomes.
  apply Permutation_map. 
  induction H as [|x l l' _ IH|x y l|l l' l'' _ IH1 _ IH2]; cbn [filter].
  - constructor.
  - destruct (String.eqb (label x) k); [now constructor | exact IH].
  - destruct (String.eqb (label x) k), (String.eqb (label y) k);
      try apply Permutation_refl. apply perm_swap.
  - now apply perm_trans with (filter (fun o => String.eqb (label o) k) l').
Qed.

Lemma label_statistic_perm (ds ds' : Dataset) :
  Permutation ds ds' ->
  same_result (label_statistic (labels ds) (outcomes ds))
              (label_statistic (labels ds') (outcomes ds')).
Proof.
  intros H. unfold label_statistic.
  rewrite <- (skeys_perm (labels ds) (labels ds'))
    by (unfold labels; now apply Permutation_map).
  destruct (skeys (labels ds)) as [|k1 [|k2 rest]]; cbn [same_result];
    try reflexivity.
  rewrite !svalues_group_outcomes.
  now rewrite (mean_perm _ _ (group_outcomes_perm k1 ds ds' H)),
              (mean_perm _ _ (group_outcomes_perm k2 ds ds' H)).
Qed.

Lemma Qsum_ones (xs : list Q) :
  forallb (fun x => Qeq_bool x 0 || Qeq_bool x 1) xs = true ->
  Qsum xs == inject_Z (Z.of_nat (ones xs)).
Proof.
  unfold ones.
  induction xs as [|x xs IH]; cbn [forallb Qsum filter]; [reflexivity|].
  intros H. apply andb_prop in H. destruct H as [Hx Hxs].
  rewrite (IH Hxs). destruct (Qeq_bool x 1) eqn:H1.
  - apply Qeq_bool_eq in H1. cbn [length]. rewrite H1.
    rewrite Nat2Z.inj_succ. unfold Z.succ. rewrite inject_Z_plus.
    change (inject_Z 1) with 1. ring.
  - rewrite orb_false_r in Hx. apply Qeq_bool_eq in Hx. rewrite Hx. ring.
Qed.

Lemma mean_proportion (xs : list Q) :
  forallb (fun x => Qeq_bool x 0 || Qeq_bool x 1) xs = true ->
  mean xs == proportion xs.
Proof.
  intros H. unfold mean, proportion. now rewrite (Qsum_ones xs H).
Qed.

Lemma group_outcomes_binary (k : string) (ds : Dataset) :
  binary_outcomes ds = true ->
  forallb (fun x => Qeq_bool x 0 || Qeq_bool x 1) (group_outcomes k ds)
  = true.
Proof.
  unfold binary_outcomes, group_outcomes, outcomes.
  rewrite !forallb_forall. intros H x Hx.
  apply in_map_iff in Hx. destruct Hx as [o [<- Ho]].
  apply filter_In in Ho. apply H, Ho.
Qed.

Lemma skeys_sorted_labels (l : list string) : sorted_labels (skeys l) l.
Proof.
  split; [|intros x; apply group_keys_in].
  eapply StronglySorted_ind with (P := StronglySorted _);
    [constructor | | apply skeys_sorted].
  intros a ks _ IH Ha. constructor; [exact IH|].
  eapply Forall_impl; [|exact Ha]. intros b. apply str_lt_ltb.
Qed.

Lemma sorted_labels_unique (ks ks' l : list string) :
  sorted_labels ks l -> sorted_labels ks' l -> ks = ks'.
Proof.
  intros [Hs Hi] [Hs' Hi'].
  assert (Hconv : forall m,
             StronglySorted (fun a b => String.ltb a b = true) m ->
             StronglySorted str_lt m).
  { induction 1 as [|a m _ IH Ha]; constructor; [exact IH|].
    eapply Forall_impl; [|exact Ha]. intros b. apply str_lt_ltb. }
  apply sorted_unique; auto.
  intros x. now rewrite Hi, Hi'.
Qed.

Lemma group_count_labels (k : string) (ds : Dataset) :
  group_count String.eqb k (labels ds) (outcomes ds)
  = count_occ string_dec (labels ds) k.
Proof.
  unfold group_count, labels, outcomes.
  induction ds as [|o ds IH]; [reflexivity|].
  cbn [map combine filter fst count_occ].
  destruct (String.eqb_spec (label o) k) as [e|n];
    destruct (string_dec (label o) k) as [e'|n']; try contradiction;
    cbn [length]; now rewrite IH.
Qed.

Lemma list_sum_cons (a : nat) (l : list nat) :
  list_sum (a :: l) = (a + list_sum l)%nat.
Proof. reflexivity. Qed.

Lemma sum_indicator (x : string) (ks : list string) :
  NoDup ks -> In x ks ->
  list_sum (map (fun k => if string_dec x k then 1%nat else 0%nat) ks)
  = 1%nat.
Proof.
  induction 1 as [|k ks Hk Hnd IH]; [contradiction|].
  cbn [map]. rewrite list_sum_cons. intros [->|Hin].
  - destruct (string_dec x x) as [_|n]; [|now elim n].
    assert (H0 : list_sum
              (map (fun k => if string_dec x k then 1%nat else 0%nat) ks)
            = 0%nat).
    { clear IH Hnd. induction ks as [|k ks IH]; [reflexivity|].
      cbn [map]. rewrite list_sum_cons.
      destruct (string_dec x k) as [->|_]; [elim Hk; now left|].
      apply IH. intros H. apply Hk. now right. }
    rewrite H0. reflexivity.
  - destruct (string_dec x k) as [->|_]; [contradiction|].
    rewrite (IH Hin). reflexivity.
Qed.

Lemma sum_count_occ (l ks : list string) :
  NoDup ks -> (forall x, In x l -> In x ks) ->
  list_sum (map (count_occ string_dec l) ks) = length l.
Proof.
  intros Hnd. induction l as [|x l IH]; intros Hin.
  - clear. induction ks as [|k ks IH]; [reflexivity|].
    cbn [map]. rewrite list_sum_cons, IH. reflexivity.
  - assert (Hsplit : forall ks',
      list_sum (map (count_occ string_dec (x :: l)) ks')
      = (list_sum (map (fun k => if string_dec x k then 1 else 0) ks')
         + list_sum (map (count_occ string_dec l) ks'))%nat).
    { induction ks' as [|k ks' IH']; [reflexivity|].
      cbn [map]. rewrite !list_sum_cons, IH'. cbn [count_occ].
      destruct (string_dec x k); lia. }
    rewrite Hsplit, sum_indicator, IH; cbn [length]; auto.
    + intros y Hy. apply Hin. now right.
    + apply Hin. now left.
Qed.

(** ** More on frames and runs *)

Lemma getitem_missing (f : DataFrame) (key : string) :
  has_col f key = false -> getitem f key = Raise (KeyError key).
Proof.
  induction f as [|[n c] f IH]; cbn [has_col existsb getitem fst];
    [reflexivity|].
  intros H. apply orb_false_elim in H. destruct H as [-> H]. now apply IH.
Qed.

Lemma has_col_setitem (f : DataFrame) (name m : string) (c : column) :
  has_col (setitem f name c) m = has_col f m || String.eqb name m.
Proof.
  induction f as [|[n c0] f IH]; cbn [setitem has_col existsb fst].
  - now rewrite orb_false_r.
  - destruct (String.eqb_spec n name) as [->|Hne]; cbn [existsb fst].
    + fold (has_col f m).
      destruct (String.eqb name m); [reflexivity | now rewrite orb_false_r].
    + fold (has_col (setitem f name c) m). fold (has_col f m).
      rewrite IH. now rewrite orb_assoc.
Qed.

Lemma run_holds (g r : string) (ds : Dataset) (f : DataFrame) (rs : rng)
  (R : Z) :
  names_ok g r = true -> holds g r ds f ->
  holds g r ds (bta_df (snd (runPermutationTest g R (mkWorld f rs)))).
Proof.
  intros Hn Hf. rewrite runPermutationTest_unfold. cbn [bta_df].
  destruct (difference_of_means_abs f g) as [obs|e]; [|exact Hf].
  destruct (simulate (Z.to_nat R) g [] (mkWorld f rs)) as [res w'] eqn:Hs.
  destruct (simulate_inv g r Hn ds _ [] f rs res w' Hf Hs) as [Hh _].
  destruct res as [diffs|e]; [|exact Hh].
  destruct (empirical_P diffs obs R); exact Hh.
Qed.

Lemma simulate_written (g r : string) (ds : Dataset) (n : nat) :
  names_ok g r = true ->
  forall acc f rs res w',
    holds g r ds f ->
    simulate (S n) g acc (mkWorld f rs) = (res, w') ->
    written g r ds (bta_df w').
Proof.
  intros Hn. induction n as [|n IH]; intros acc f rs res w' Hf Hrun;
    cbn [simulate] in Hrun; unfold bind in Hrun;
    rewrite (one_simulated_difference_spec g r Hn ds f rs Hf) in Hrun;
    destruct (label_statistic (shuffle_labels ds rs) (outcomes ds))
      as [d|e].
  - unfold ret in Hrun. injection Hrun as <- <-.
    eexists. split; [reflexivity | apply shuffle_labels_perm].
  - injection Hrun as <- <-.
    eexists. split; [reflexivity | apply shuffle_labels_perm].
  - eapply IH; [|exact Hrun]. constructor.
  - injection Hrun as <- <-.
    eexists. split; [reflexivity | apply shuffle_labels_perm].
Qed.

Lemma shuffle_labels_length (ds : Dataset) (rs : rng) :
  length (shuffle_labels ds rs) = length ds.
Proof.
  rewrite (Permutation_length (shuffle_labels_perm ds rs)).
  apply length_map.
Qed.

Lemma relabel_labels (sl : list string) :
  forall ds, length sl = length ds -> labels (relabel sl ds) = sl.
Proof.
  unfold labels, relabel.
  induction sl as [|s sl IH]; intros [|o ds] H; try discriminate;
    [reflexivity|].
  cbn [combine map fst label]. f_equal. apply IH. now injection H.
Qed.

Lemma relabel_outcomes (sl : list string) :
  forall ds, length sl = length ds -> outcomes (relabel sl ds) = outcomes ds.
Proof.
  unfold outcomes, relabel.
  induction sl as [|s sl IH]; intros [|o ds] H; try discriminate;
    [reflexivity|].
  cbn [combine map snd outcome]. f_equal. apply IH. now injection H.
Qed.


(** ** Counting comparisons *)

Lemma count_nonzero_cons (b : bool) (bs : list bool) :
  count_nonzero (b :: bs)
  = ((if b then 1 else 0) + count_nonzero bs)%nat.
Proof. unfold count_nonzero. cbn [filter]. now destruct b. Qed.

Lemma count_le_mono (diffs : list Q) (o1 o2 : Q) :
  o1 <= o2 ->
  (count_nonzero (map (fun d => Qle_bool d o1) diffs)
   <= count_nonzero (map (fun d => Qle_bool d o2) diffs))%nat.
Proof.
  intros Ho. induction diffs as [|d diffs IH]; [apply Nat.le_refl|].
  cbn [map]. rewrite !count_nonzero_cons.
  destruct (Qle_bool d o1) eqn:H1; [|lia].
  assert (H2 : Qle_bool d o2 = true).
  { apply Qle_bool_iff. apply Qle_bool_iff in H1. lra. }
  rewrite H2. lia.
Qed.

Lemma count_le_ge (diffs : list Q) (obs : Q) :
  (count_nonzero (map (fun d => Qle_bool d obs) diffs)
   + count_nonzero (map (fun d => Qle_bool obs d) diffs)
   = length diffs + ties diffs obs)%nat.
Proof.
  unfold ties. induction diffs as [|d diffs IH]; [reflexivity|].
  cbn [map length]. rewrite !count_nonzero_cons.
  assert (Hd : ((if Qle_bool d obs then 1 else 0)
                + (if Qle_bool obs d then 1 else 0)
                = 1 + (if Qeq_bool d obs then 1 else 0))%nat).
  { destruct (Qle_bool d obs) eqn:H1, (Qle_bool obs d) eqn:H2,
             (Qeq_bool d obs) eqn:H3; try reflexivity; exfalso.
    - apply Qle_bool_iff in H1, H2. apply Qeq_bool_neq in H3.
      apply H3. now apply Qle_antisym.
    - apply Qeq_bool_eq in H3. rewrite H3 in H2.
      rewrite (proj2 (Qle_bool_iff obs obs) (Qle_refl obs)) in H2.
      discriminate.
    - apply Qeq_bool_eq in H3. rewrite H3 in H1.
      rewrite (proj2 (Qle_bool_iff obs obs) (Qle_refl obs)) in H1.
      discriminate.
    - apply Qeq_bool_eq in H3. rewrite H3 in H1.
      rewrite (proj2 (Qle_bool_iff obs obs) (Qle_refl obs)) in H1.
      discriminate.
    - assert (H1' : ~ d <= obs)
        by (intros H; apply Qle_bool_iff in H; congruence).
      assert (H2' : ~ obs <= d)
        by (intros H; apply Qle_bool_iff in H; congruence).
      apply Qnot_le_lt in H1', H2'. lra. }
  lia.
Qed.

Lemma count_le_all (diffs : list Q) (obs : Q) :
  Forall (fun d => d <= obs) diffs ->
  count_nonzero (map (fun d => Qle_bool d obs) diffs) = length diffs.
Proof.
  induction 1 as [|d diffs Hd _ IH]; [reflexivity|].
  cbn [map length]. rewrite count_nonzero_cons, IH.
  now rewrite (proj2 (Qle_bool_iff d obs) Hd).
Qed.

Lemma groupby_mean_frame (g r : string) (ds : Dataset) :
  names_ok g r = true ->
  groupby_mean (frame_of g r ds) g
  = Ok (map (fun k => [mean (group_outcomes k ds)]) (skeys (labels ds))).
Proof.
  intros Hn. unfold groupby_mean, frame_of, group_means.
  cbn [getitem numeric_columns].
  rewrite String.eqb_refl, (names_rg g r Hn).
  f_equal. apply map_ext. intros k. cbn [map].
  now rewrite svalues_group_outcomes.
Qed.

Lemma groupby_count_frame (g r : string) (ds : Dataset) :
  names_ok g r = true ->
  groupby_count (frame_of g r ds) g
  = Ok (map (fun k => [count_occ string_dec (labels ds) k])
            (skeys (labels ds))).
Proof.
  intros Hn. unfold groupby_count, frame_of.
  cbn [getitem other_columns].
  rewrite String.eqb_refl, (names_rg g r Hn).
  f_equal. apply map_ext. intros k. cbn [map col_group_count].
  now rewrite group_count_labels.
Qed.








(** * Main results *)

(** C1.  The code counts the simulated statistics that are at most the
    observed one.  With no relief in the control group and relief throughout
    the treatment group the observed statistic is 1; a relabelling that
    puts one patient of each kind in each group gives the statistic 0; the
    run with this single trial returns the P-value 1, whereas the proportion
    of simulated statistics equal to or larger than the observed one is
    0. *)
Theorem empirical_P_counts_at_most :
  runPermutationTest "Group" 1
    (mkWorld (frame_of "Group" "Result" control_treatment) [0; 1; 0; 0]%nat)
  = (Ok (4 # 4, [0 # 4], 1),
     mkWorld (relabelled "Group" "Result" control_treatment
                ["Control"; "Treatment"; "Control"; "Treatment"]) [])
  /\ 4 # 4 == 1 /\ 0 # 4 == 0
  /\ proportion_at_least [0 # 4] (4 # 4) 1 == 0
  /\ ~ 1 == proportion_at_least [0 # 4] (4 # 4) 1.
Proof. repeat split. discriminate. Qed.

(** C2, as the code has it.  A simulated trial, and so a run, leaves the
    rows of the caller's dataset and every column other than
    [Shuffled Label] as they were (group labels and outcome values among
    them), and a trial writes the labels it shuffled into the caller's
    dataset as the column [Shuffled Label]. *)
Theorem simulation_writes_shuffled_label (g r : string) (ds : Dataset)
  (f : DataFrame) (rs : rng) (R : Z) :
  names_ok g r = true -> holds g r ds f ->
  (let f' := bta_df (snd (one_simulated_difference g (mkWorld f rs))) in
   same_dataset f f'
   /\ exists sl, getitem f' "Shuffled Label" = Ok (StrCol sl)
                 /\ Permutation sl (labels ds))
  /\ same_dataset f (bta_df (snd (runPermutationTest g R (mkWorld f rs)))).
Proof.
  intros Hn Hf. split.
  - rewrite (one_simulated_difference_spec g r Hn ds f rs Hf).
    cbn [snd bta_df]. split.
    + apply (holds_same_dataset g r ds); [exact Hn | exact Hf | constructor].
    + exists (shuffle_labels ds rs). split; [|apply shuffle_labels_perm].
      unfold relabelled, frame_of. cbn [app getitem].
      now rewrite (names_gS g r Hn), (names_rS g r Hn), String.eqb_refl.
  - apply (holds_same_dataset g r ds); [exact Hn | exact Hf |].
    rewrite runPermutationTest_unfold. cbn [bta_df].
    destruct (difference_of_means_abs f g) as [obs|e]; [|exact Hf].
    destruct (simulate (Z.to_nat R) g [] (mkWorld f rs)) as [res w'] eqn:Hs.
    destruct (simulate_inv g r Hn ds _ [] f rs res w' Hf Hs) as [Hh _].
    destruct res as [diffs|e]; [|exact Hh].
    destruct (empirical_P diffs obs R); exact Hh.
Qed.

Lemma simulation_writes_shuffled_label_witness :
  (let f' := bta_df (snd (one_simulated_difference "Group"
                 (mkWorld (frame_of "Group" "Result" scenario) [3; 1]%nat))) in
   same_dataset (frame_of "Group" "Result" scenario) f'
   /\ exists sl, getitem f' "Shuffled Label" = Ok (StrCol sl)
                 /\ Permutation sl (labels scenario))
  /\ same_dataset (frame_of "Group" "Result" scenario)
       (bta_df (snd (runPermutationTest "Group" 2
         (mkWorld (frame_of "Group" "Result" scenario) [3; 1]%nat)))).
Proof.
  apply (simulation_writes_shuffled_label "Group" "Result" scenario).
  - reflexivity.
  - apply holds_loaded.
Defined.

(** C2 as stated fails: a single simulated trial on the scenario's dataset
    leaves the caller's frame with a third column. *)
Lemma one_simulated_difference_mutates_frame :
  bta_df (snd (one_simulated_difference "Group"
                 (mkWorld (frame_of "Group" "Result" scenario) [])))
  <> frame_of "Group" "Result" scenario.
Proof. vm_compute. discriminate. Qed.

(** C3.  In every simulated trial, whether the caller's frame is freshly
    loaded or already carries the column of an earlier trial, the labels the
    statistic is computed on are a permutation of the dataset's labels:
    every label value occurs as often as in the original, and the results
    stay where they were. *)
Theorem relabelling_permutes_labels (g r : string) (ds : Dataset)
  (f : DataFrame) (rs : rng) :
  names_ok g r = true -> holds g r ds f ->
  exists sl w',
    shuffled_frame g (mkWorld f rs) = (Ok (shuffled r ds sl), w')
    /\ one_simulated_difference g (mkWorld f rs)
       = (difference_of_means_abs (shuffled r ds sl) "Shuffled Label", w')
    /\ Permutation sl (labels ds)
    /\ forall l, count_occ string_dec sl l
                 = count_occ string_dec (labels ds) l.
Proof.
  intros Hn Hf.
  exists (shuffle_labels ds rs). eexists.
  split; [apply (shuffled_frame_spec g r Hn ds f rs Hf)|].
  split; [|split].
  - rewrite (one_simulated_difference_spec g r Hn ds f rs Hf).
    now rewrite (shuffled_eq g r Hn).
  - apply shuffle_labels_perm.
  - apply (Permutation_count_occ string_dec), shuffle_labels_perm.
Qed.

Lemma relabelling_permutes_labels_witness :
  exists sl w',
    shuffled_frame "Group"
      (mkWorld (frame_of "Group" "Result" scenario) [3; 1; 4; 1; 5]%nat)
    = (Ok (shuffled "Result" scenario sl), w')
    /\ one_simulated_difference "Group"
         (mkWorld (frame_of "Group" "Result" scenario) [3; 1; 4; 1; 5]%nat)
       = (difference_of_means_abs (shuffled "Result" scenario sl)
            "Shuffled Label", w')
    /\ Permutation sl (labels scenario)
    /\ forall l, count_occ string_dec sl l
                 = count_occ string_dec (labels scenario) l.
Proof.
  apply (relabelling_permutes_labels "Group" "Result" scenario).
  - reflexivity.
  - apply holds_loaded.
Defined.

(** C4, as the code has it.  With a repetition count [<= 0] no trial is run:
    the dataset and the random state are left as they were and the null
    distribution is empty.  With [0] the run fails, by the division by zero
    of the P-value unless the observed statistic failed before; with a
    negative count the run does not fail for the count: it returns the
    observed statistic, the empty null distribution and the P-value 0. *)
Theorem nonpositive_repetitions (g : string) (R : Z) (w : world) :
  (R <= 0)%Z ->
  runPermutationTest g R w
  = (try obs <- difference_of_means_abs (bta_df w) g in
     if (R =? 0)%Z then Raise ZeroDivisionError
     else Ok (obs, [], 0 / inject_Z R),
     w)
  /\ 0 / inject_Z R == 0.
Proof.
  intros HR. split.
  - rewrite runPermutationTest_unfold.
    destruct (difference_of_means_abs (bta_df w) g) as [obs|e];
      [|reflexivity].
    replace (Z.to_nat R) with 0%nat by lia.
    cbn [simulate rbind]. unfold ret, empirical_P.
    destruct (R =? 0)%Z; reflexivity.
  - unfold Qdiv. apply Qmult_0_l.
Qed.

Lemma nonpositive_repetitions_witness :
  runPermutationTest "Group" 0
    (mkWorld (frame_of "Group" "Result" scenario) [3; 1]%nat)
  = (Raise ZeroDivisionError,
     mkWorld (frame_of "Group" "Result" scenario) [3; 1]%nat).
Proof.
  destruct (nonpositive_repetitions "Group" 0
              (mkWorld (frame_of "Group" "Result" scenario) [3; 1]%nat))
    as [H _].
  - lia.
  - exact H.
Defined.

(** C4 as stated fails: with [repetitions = -1] the run on the scenario's
    dataset raises nothing. *)
Lemma negative_repetitions_no_error :
  fst (runPermutationTest "Group" (-1)
         (mkWorld (frame_of "Group" "Result" scenario) []))
  = Ok (43 # 80, [], 0).
Proof. reflexivity. Qed.

(** C5, as the code has it.  The observed statistic fails, with an index
    error, exactly when the label column has fewer than two distinct values
    (the empty dataset included); with two or more distinct values, more
    than two included, it returns a statistic. *)
Theorem observed_statistic_label_errors (g r : string) (ds : Dataset) :
  names_ok g r = true ->
  if (n_groups ds <? 2)%nat
  then difference_of_means_abs (frame_of g r ds) g = Raise IndexError
  else exists q, difference_of_means_abs (frame_of g r ds) g = Ok q.
Proof.
  intros Hn.
  rewrite (observed_eq g r Hn ds _ (holds_loaded g r ds)).
  destruct (Nat.ltb_spec (n_groups ds) 2) as [Hlt|Hge].
  - apply label_statistic_raise. now apply nodup_small.
  - destruct (nodup_two (labels ds) Hge) as (a & b & Ha & Hb & Hab).
    now apply (label_statistic_ok _ _ a b).
Qed.

Lemma observed_statistic_label_errors_witness :
  difference_of_means_abs (frame_of "Group" "Result" (group "A" [1; 0]))
    "Group"
  = Raise IndexError.
Proof.
  apply (observed_statistic_label_errors "Group" "Result" (group "A" [1; 0])).
  reflexivity.
Defined.

(** C5 as stated fails: on a dataset with the three labels A, B and C the
    observed statistic is returned, the distance between the means of A and
    B, and no error is raised. *)
Lemma three_labels_no_error :
  difference_of_means_abs
    (frame_of "Group" "Result"
       (group "A" [1; 0] ++ group "B" [1; 1] ++ group "C" [0; 0]))
    "Group"
  = Ok (2 # 4).
Proof. reflexivity. Qed.

(** C6.  On a valid dataset and with [R > 0] repetitions the run returns, its
    null distribution has exactly [R] elements, and each of them is
    non-negative. *)
Theorem null_distribution_size_nonneg (g r : string) (ds : Dataset) (R : Z)
  (rs : rng) :
  names_ok g r = true -> valid_dataset ds -> (0 < R)%Z ->
  exists obs diffs p w',
    runPermutationTest g R (mkWorld (frame_of g r ds) rs)
    = (Ok (obs, diffs, p), w')
    /\ Z.of_nat (length diffs) = R
    /\ Forall (fun d => 0 <= d) diffs.
Proof.
  intros Hn Hv HR.
  destruct (run_valid g r ds (Z.to_nat R) rs Hn) as
    (obs & diffs & w' & Hobs & Hrun & Hlen & Hp);
    [unfold valid_dataset in Hv; lia|].
  assert (HlenZ : Z.of_nat (length diffs) = R) by lia.
  destruct (empirical_P_bounds diffs obs R HR HlenZ) as (p & Hp' & _).
  exists obs, diffs, p, w'. split; [|split; [exact HlenZ|]].
  - rewrite runPermutationTest_unfold. cbn [bta_df].
    now rewrite Hobs, Hrun, Hp'.
  - eapply Forall_impl; [|exact Hp]. intros d. apply produced_nonneg.
Qed.

Lemma null_distribution_size_nonneg_witness :
  exists obs diffs p w',
    runPermutationTest "Group" 3
      (mkWorld (frame_of "Group" "Result" scenario) [3; 1; 4; 1; 5]%nat)
    = (Ok (obs, diffs, p), w')
    /\ Z.of_nat (length diffs) = 3%Z
    /\ Forall (fun d => 0 <= d) diffs.
Proof.
  apply (null_distribution_size_nonneg "Group" "Result" scenario 3).
  - reflexivity.
  - reflexivity.
  - lia.
Defined.

(** C7.  On the dataset with group A = [1,1,1,0,0] and group B = one 1 and
    fifteen 0s the group means are 3/5 = 0.6 and 1/16 = 0.0625 and the
    observed statistic is 43/80 = 0.5375. *)
Theorem scenario_statistic :
  groupby_mean (frame_of "Group" "Result" scenario) "Group"
  = Ok [[3 # 5]; [1 # 16]]
  /\ difference_of_means_abs (frame_of "Group" "Result" scenario) "Group"
     = Ok (43 # 80)
  /\ 3 # 5 == 0.6 /\ 1 # 16 == 0.0625 /\ 43 # 80 == 0.5375.
Proof. repeat split. Qed.

(** C8.  On a dataset whose labels are the two values [a] and [b], giving
    the observations labelled [a] the label [b] and those labelled [b] the
    label [a] leaves the observed statistic as it was. *)
Theorem statistic_symmetric_under_swap (g r a b : string) (ds : Dataset) :
  names_ok g r = true -> a <> b -> two_valued a b (labels ds) ->
  difference_of_means_abs (frame_of g r (swap_groups a b ds)) g
  = difference_of_means_abs (frame_of g r ds) g.
Proof.
  intros Hn Hne Hl.
  rewrite !(observed_eq g r Hn _ _ (holds_loaded g r _)).
  assert (Hlab : labels (swap_groups a b ds)
                 = map (swap_label a b) (labels ds)).
  { unfold labels, swap_groups. rewrite !map_map. reflexivity. }
  assert (Hout : outcomes (swap_groups a b ds) = outcomes ds).
  { unfold outcomes, swap_groups. rewrite map_map. reflexivity. }
  rewrite Hlab, Hout. now apply label_statistic_swap.
Qed.

Lemma statistic_symmetric_under_swap_witness :
  difference_of_means_abs
    (frame_of "Group" "Result" (swap_groups "A" "B" scenario)) "Group"
  = difference_of_means_abs (frame_of "Group" "Result" scenario) "Group".
Proof.
  apply (statistic_symmetric_under_swap "Group" "Result" "A" "B" scenario).
  - reflexivity.
  - discriminate.
  - intros x Hx. simpl in Hx.
    repeat (destruct Hx as [<-|Hx]; [auto|]). contradiction.
Defined.

(** C9.  On a valid dataset and with [R > 0] repetitions the run returns a
    P-value in the closed interval [0, 1]. *)
Theorem p_value_in_unit_interval (g r : string) (ds : Dataset) (R : Z)
  (rs : rng) :
  names_ok g r = true -> valid_dataset ds -> (0 < R)%Z ->
  exists obs diffs p w',
    runPermutationTest g R (mkWorld (frame_of g r ds) rs)
    = (Ok (obs, diffs, p), w')
    /\ 0 <= p /\ p <= 1.
Proof.
  intros Hn Hv HR.
  destruct (run_valid g r ds (Z.to_nat R) rs Hn) as
    (obs & diffs & w' & Hobs & Hrun & Hlen & _);
    [unfold valid_dataset in Hv; lia|].
  assert (HlenZ : Z.of_nat (length diffs) = R) by lia.
  destruct (empirical_P_bounds diffs obs R HR HlenZ) as (p & Hp' & Hb).
  exists obs, diffs, p, w'. split; [|exact Hb].
  rewrite runPermutationTest_unfold. cbn [bta_df].
  now rewrite Hobs, Hrun, Hp'.
Qed.

Lemma p_value_in_unit_interval_witness :
  exists obs diffs p w',
    runPermutationTest "Group" 4
      (mkWorld (frame_of "Group" "Result" scenario) [2; 7; 1; 8; 2; 8]%nat)
    = (Ok (obs, diffs, p), w')
    /\ 0 <= p /\ p <= 1.
Proof.
  apply (p_value_in_unit_interval "Group" "Result" scenario 4).
  - reflexivity.
  - reflexivity.
  - lia.
Defined.

(** C10.  When every outcome of the dataset is 0 or 1, the observed
    statistic and every element of the null distribution that a run returns
    lie in [0, 1]. *)
Theorem statistics_in_unit_interval (g r : string) (ds : Dataset) (R : Z)
  (rs : rng) (obs : Q) (diffs : list Q) (p : Q) (w' : world) :
  names_ok g r = true -> binary_outcomes ds = true ->
  runPermutationTest g R (mkWorld (frame_of g r ds) rs)
  = (Ok (obs, diffs, p), w') ->
  (0 <= obs /\ obs <= 1) /\ Forall (fun d => 0 <= d /\ d <= 1) diffs.
Proof.
  intros Hn Hb Hrun.
  pose proof (holds_loaded g r ds) as Hf.
  rewrite runPermutationTest_unfold in Hrun. cbn [bta_df] in Hrun.
  rewrite (observed_eq g r Hn ds _ Hf) in Hrun.
  destruct (label_statistic (labels ds) (outcomes ds)) as [o|e] eqn:Ho;
    [|discriminate].
  destruct (simulate (Z.to_nat R) g [] (mkWorld (frame_of g r ds) rs))
    as [[ds'|e] w''] eqn:Hs; [|discriminate].
  destruct (empirical_P ds' o R) as [p'|e]; [|discriminate].
  injection Hrun as <- <- <- <-.
  split.
  - split; [eapply label_statistic_nonneg, Ho|].
    eapply label_statistic_le_1; [apply binary_unit_interval, Hb | exact Ho].
  - destruct (simulate_inv g r Hn ds _ [] _ rs _ _ Hf Hs) as [_ Hres].
    destruct (Hres ds' eq_refl) as (new & -> & _ & Hp). cbn [app].
    eapply Forall_impl; [|exact Hp]. intros d Hd. split.
    + eapply produced_nonneg, Hd.
    + eapply produced_le_1; [exact Hb | exact Hd].
Qed.

Lemma statistics_in_unit_interval_witness :
  (0 <= 43 # 80 /\ 43 # 80 <= 1)
  /\ Forall (fun d => 0 <= d /\ d <= 1) [22 # 80; 43 # 80].
Proof.
  apply (statistics_in_unit_interval "Group" "Result" scenario 2
           [3; 1; 4; 1; 5; 9; 2; 6]%nat (43 # 80) [22 # 80; 43 # 80] (2 # 2)
           (mkWorld
              (relabelled "Group" "Result" scenario (labels scenario)) [])).
  - reflexivity.
  - reflexivity.
  - reflexivity.
Defined.

(** * Further results *)

(** X1.  On a dataset whose labels are the two values [a] and [b], both
    present, the statistic is the absolute difference between the mean
    outcome of the observations labelled [a] and the mean outcome of those
    labelled [b]. *)
Theorem two_group_statistic (g r a b : string) (ds : Dataset) :
  names_ok g r = true -> a <> b -> two_valued a b (labels ds) ->
  In a (labels ds) -> In b (labels ds) ->
  difference_of_means_abs (frame_of g r ds) g
  = Ok (Qabs (mean (group_outcomes a ds) - mean (group_outcomes b ds))).
Proof.
  intros Hn Hne Hl Ha Hb.
  rewrite (observed_eq g r Hn ds _ (holds_loaded g r ds)).
  now apply label_statistic_two.
Qed.

Lemma two_group_statistic_witness :
  difference_of_means_abs (frame_of "Group" "Result" control_treatment)
    "Group"
  = Ok (Qabs (mean (group_outcomes "Treatment" control_treatment)
              - mean (group_outcomes "Control" control_treatment))).
Proof.
  apply (two_group_statistic "Group" "Result" "Treatment" "Control").
  - reflexivity.
  - discriminate.
  - intros x Hx. simpl in Hx.
    repeat (destruct Hx as [<-|Hx]; [auto|]). contradiction.
  - simpl. auto.
  - simpl. auto.
Defined.

(** X2.  Whatever the number of groups, as long as there are two, the
    statistic compares the groups of the two labels that sort first and
    ignores every other group. *)
Theorem statistic_of_two_smallest_labels (g r : string) (ds : Dataset) :
  names_ok g r = true -> (2 <= n_groups ds)%nat ->
  exists k1 k2,
    In k1 (labels ds) /\ In k2 (labels ds) /\ String.ltb k1 k2 = true
    /\ (forall x, In x (labels ds) ->
                  x = k1 \/ x = k2 \/ String.ltb k2 x = true)
    /\ difference_of_means_abs (frame_of g r ds) g
       = Ok (Qabs (mean (group_outcomes k1 ds) - mean (group_outcomes k2 ds))).
Proof.
  intros Hn Hlen.
  destruct (skeys_two_smallest (labels ds) Hlen)
    as (k1 & k2 & rest & Hk & H1 & H2 & Hlt & Hmin).
  exists k1, k2. repeat (split; [assumption|]).
  rewrite (observed_eq g r Hn ds _ (holds_loaded g r ds)).
  unfold label_statistic. rewrite Hk.
  now rewrite !svalues_group_outcomes.
Qed.

Lemma statistic_of_two_smallest_labels_witness :
  exists k1 k2,
    In k1 (labels three_groups) /\ In k2 (labels three_groups)
    /\ String.ltb k1 k2 = true
    /\ (forall x, In x (labels three_groups) ->
                  x = k1 \/ x = k2 \/ String.ltb k2 x = true)
    /\ difference_of_means_abs (frame_of "Group" "Result" three_groups)
         "Group"
       = Ok (Qabs (mean (group_outcomes k1 three_groups)
                   - mean (group_outcomes k2 three_groups))).
Proof.
  apply (statistic_of_two_smallest_labels "Group" "Result" three_groups).
  - reflexivity.
  - vm_compute. lia.
Defined.

(** X3.  The statistic does not depend on the order of the rows: two
    datasets with the same observations in different orders fail alike or
    give equal statistics. *)
Theorem statistic_row_order (g r : string) (ds ds' : Dataset) :
  names_ok g r = true -> Permutation ds ds' ->
  same_result (difference_of_means_abs (frame_of g r ds) g)
              (difference_of_means_abs (frame_of g r ds') g).
Proof.
  intros Hn Hp.
  rewrite !(observed_eq g r Hn _ _ (holds_loaded g r _)).
  now apply label_statistic_perm.
Qed.

Lemma statistic_row_order_witness :
  same_result
    (difference_of_means_abs (frame_of "Group" "Result" scenario) "Group")
    (difference_of_means_abs (frame_of "Group" "Result" (rev scenario))
       "Group").
Proof.
  apply (statistic_row_order "Group" "Result" scenario (rev scenario)).
  - reflexivity.
  - apply Permutation_rev.
Defined.

(** X4.  [groupby(g).mean()] of the loaded frame has one row per distinct
    label, in increasing order of the labels, and the row of a label holds
    one number, the mean of the outcomes with that label. *)
Theorem groupby_mean_rows (g r : string) (ds : Dataset) :
  names_ok g r = true ->
  exists ks,
    sorted_labels ks (labels ds)
    /\ groupby_mean (frame_of g r ds) g
       = Ok (map (fun k => [mean (group_outcomes k ds)]) ks).
Proof.
  intros Hn. exists (skeys (labels ds)).
  split; [apply skeys_sorted_labels | now apply groupby_mean_frame].
Qed.

Lemma groupby_mean_rows_witness :
  exists ks,
    sorted_labels ks (labels three_groups)
    /\ groupby_mean (frame_of "Group" "Result" three_groups) "Group"
       = Ok (map (fun k => [mean (group_outcomes k three_groups)]) ks).
Proof.
  apply (groupby_mean_rows "Group" "Result" three_groups). reflexivity.
Defined.

(** X5.  When every outcome is 0 or 1 the means [groupby(g).mean()] shows
    are proportions: the row of a label holds the number of its 1s divided
    by the number of its observations. *)
Theorem group_means_are_proportions (g r : string) (ds : Dataset) :
  names_ok g r = true -> binary_outcomes ds = true ->
  exists ks rows,
    sorted_labels ks (labels ds)
    /\ groupby_mean (frame_of g r ds) g = Ok rows
    /\ Forall2 (fun k row =>
                  exists m, row = [m]
                            /\ m == proportion (group_outcomes k ds))
               ks rows.
Proof.
  intros Hn Hb.
  exists (skeys (labels ds)). eexists.
  split; [apply skeys_sorted_labels|].
  split; [now apply groupby_mean_frame|].
  induction (skeys (labels ds)) as [|k ks IH]; cbn [map]; constructor;
    [|exact IH].
  eexists. split; [reflexivity|].
  apply mean_proportion, group_outcomes_binary, Hb.
Qed.

Lemma group_means_are_proportions_witness :
  exists ks rows,
    sorted_labels ks (labels scenario)
    /\ groupby_mean (frame_of "Group" "Result" scenario) "Group" = Ok rows
    /\ Forall2 (fun k row =>
                  exists m, row = [m]
                            /\ m == proportion (group_outcomes k scenario))
               ks rows.
Proof.
  apply (group_means_are_proportions "Group" "Result" scenario).
  - reflexivity.
  - reflexivity.
Defined.

(** X6.  [groupby(g).count()] of the loaded frame has one row per distinct
    label, in increasing order of the labels; the row of a label holds the
    number of observations with that label, and these numbers add up to the
    number of rows of the dataset. *)
Theorem groupby_count_rows (g r : string) (ds : Dataset) :
  names_ok g r = true ->
  exists ks,
    sorted_labels ks (labels ds)
    /\ groupby_count (frame_of g r ds) g
       = Ok (map (fun k => [count_occ string_dec (labels ds) k]) ks)
    /\ list_sum (map (count_occ string_dec (labels ds)) ks) = length ds.
Proof.
  intros Hn. exists (skeys (labels ds)).
  split; [apply skeys_sorted_labels|].
  split; [now apply groupby_count_frame|].
  rewrite sum_count_occ.
  - apply length_map.
  - apply sorted_NoDup, skeys_sorted.
  - intros x. apply group_keys_in.
Qed.

Lemma groupby_count_rows_witness :
  exists ks,
    sorted_labels ks (labels scenario)
    /\ groupby_count (frame_of "Group" "Result" scenario) "Group"
       = Ok (map (fun k => [count_occ string_dec (labels scenario) k]) ks)
    /\ list_sum (map (count_occ string_dec (labels scenario)) ks)
       = length scenario.
Proof.
  apply (groupby_count_rows "Group" "Result" scenario). reflexivity.
Defined.

(** X7.  Simulated trials, and whole runs, leave the observed statistic of
    the caller's frame as it was: computing it after them gives what it
    gave before. *)
Theorem observed_statistic_survives_trials (g r : string) (ds : Dataset)
  (f : DataFrame) (rs : rng) (R : Z) :
  names_ok g r = true -> holds g r ds f ->
  difference_of_means_abs
    (bta_df (snd (one_simulated_difference g (mkWorld f rs)))) g
  = difference_of_means_abs f g
  /\ difference_of_means_abs
       (bta_df (snd (runPermutationTest g R (mkWorld f rs)))) g
     = difference_of_means_abs f g.
Proof.
  intros Hn Hf. rewrite (observed_eq g r Hn ds f Hf). split.
  - rewrite (one_simulated_difference_spec g r Hn ds f rs Hf).
    apply (observed_eq g r Hn ds). constructor.
  - apply (observed_eq g r Hn ds). now apply run_holds.
Qed.

Lemma observed_statistic_survives_trials_witness :
  difference_of_means_abs
    (bta_df (snd (one_simulated_difference "Group"
       (mkWorld (frame_of "Group" "Result" scenario) [3; 1; 4]%nat))))
    "Group"
  = difference_of_means_abs (frame_of "Group" "Result" scenario) "Group"
  /\ difference_of_means_abs
       (bta_df (snd (runPermutationTest "Group" 3
          (mkWorld (frame_of "Group" "Result" scenario) [3; 1; 4]%nat))))
       "Group"
     = difference_of_means_abs (frame_of "Group" "Result" scenario) "Group".
Proof.
  apply (observed_statistic_survives_trials "Group" "Result" scenario).
  - reflexivity.
  - apply holds_loaded.
Defined.

(** X8.  A trial shuffles the original group labels, not the labels an
    earlier trial left behind: from the same random state it does the same
    on a freshly loaded frame and on a frame that carries the column of an
    earlier trial. *)
Theorem trial_ignores_earlier_trials (g r : string) (ds : Dataset)
  (f f' : DataFrame) (rs : rng) :
  names_ok g r = true -> holds g r ds f -> holds g r ds f' ->
  one_simulated_difference g (mkWorld f rs)
  = one_simulated_difference g (mkWorld f' rs).
Proof.
  intros Hn Hf Hf'.
  now rewrite !(one_simulated_difference_spec g r Hn ds _ rs).
Qed.

Lemma trial_ignores_earlier_trials_witness :
  one_simulated_difference "Group"
    (mkWorld (frame_of "Group" "Result" control_treatment) [1; 2]%nat)
  = one_simulated_difference "Group"
      (mkWorld (relabelled "Group" "Result" control_treatment
                  ["Treatment"; "Control"; "Treatment"; "Control"])
               [1; 2]%nat).
Proof.
  apply (trial_ignores_earlier_trials "Group" "Result" control_treatment).
  - reflexivity.
  - apply holds_loaded.
  - apply holds_relabelled.
Defined.

(** X9.  What a trial returns is the observed statistic of a relabelled
    dataset: the same outcomes in the same order, with a permutation of the
    labels. *)
Theorem trial_is_statistic_of_relabelled_dataset (g r : string)
  (ds : Dataset) (f : DataFrame) (rs : rng) :
  names_ok g r = true -> holds g r ds f ->
  let ds' := relabel (shuffle_labels ds rs) ds in
  fst (one_simulated_difference g (mkWorld f rs))
  = difference_of_means_abs (frame_of g r ds') g
  /\ Permutation (labels ds') (labels ds)
  /\ outcomes ds' = outcomes ds.
Proof.
  intros Hn Hf ds'.
  pose proof (shuffle_labels_length ds rs) as Hlen.
  assert (Hl : labels ds' = shuffle_labels ds rs)
    by now apply relabel_labels.
  assert (Ho : outcomes ds' = outcomes ds) by now apply relabel_outcomes.
  split; [|split; [rewrite Hl; apply shuffle_labels_perm | exact Ho]].
  rewrite (one_simulated_difference_spec g r Hn ds f rs Hf). cbn [fst].
  rewrite (observed_eq g r Hn ds' _ (holds_loaded g r ds')).
  now rewrite Hl, Ho.
Qed.

Lemma trial_is_statistic_of_relabelled_dataset_witness :
  let ds' := relabel (shuffle_labels scenario [3; 1; 4]%nat) scenario in
  fst (one_simulated_difference "Group"
         (mkWorld (frame_of "Group" "Result" scenario) [3; 1; 4]%nat))
  = difference_of_means_abs (frame_of "Group" "Result" ds') "Group"
  /\ Permutation (labels ds') (labels scenario)
  /\ outcomes ds' = outcomes scenario.
Proof.
  apply (trial_is_statistic_of_relabelled_dataset "Group" "Result" scenario).
  - reflexivity.
  - apply holds_loaded.
Defined.

(** X10.  On a dataset with fewer than two groups a trial fails with an
    index error, but only after it has written its column into the caller's
    frame and consumed the random draws. *)
Theorem single_group_trial_fails_after_writing (g r : string) (ds : Dataset)
  (f : DataFrame) (rs : rng) :
  names_ok g r = true -> holds g r ds f -> (n_groups ds < 2)%nat ->
  one_simulated_difference g (mkWorld f rs)
  = (Raise IndexError,
     mkWorld (relabelled g r ds (shuffle_labels ds rs))
             (snd (sample_locs (length ds) rs))).
Proof.
  intros Hn Hf Hlt.
  rewrite (one_simulated_difference_spec g r Hn ds f rs Hf).
  rewrite label_statistic_raise; [reflexivity|].
  intros x y Hx Hy.
  apply (nodup_small (labels ds) Hlt);
    apply (Permutation_in _ (shuffle_labels_perm ds rs)); assumption.
Qed.

Lemma single_group_trial_fails_after_writing_witness :
  one_simulated_difference "Group"
    (mkWorld (frame_of "Group" "Result" (group "A" [1; 0])) [1]%nat)
  = (Raise IndexError,
     mkWorld (relabelled "Group" "Result" (group "A" [1; 0])
                (shuffle_labels (group "A" [1; 0]) [1]%nat))
             (snd (sample_locs (length (group "A" [1; 0])) [1]%nat))).
Proof.
  apply (single_group_trial_fails_after_writing "Group" "Result"
           (group "A" [1; 0])).
  - reflexivity.
  - apply holds_loaded.
  - vm_compute. lia.
Defined.

(** X11.  On a dataset with fewer than two groups a run fails with an index
    error at the observed statistic, whatever the repetition count: no
    trial is run, and the frame and the random state are left as they
    were. *)
Theorem single_group_run_fails_first (g r : string) (ds : Dataset) (R : Z)
  (rs : rng) :
  names_ok g r = true -> (n_groups ds < 2)%nat ->
  runPermutationTest g R (mkWorld (frame_of g r ds) rs)
  = (Raise IndexError, mkWorld (frame_of g r ds) rs).
Proof.
  intros Hn Hlt. rewrite runPermutationTest_unfold. cbn [bta_df].
  rewrite (observed_eq g r Hn ds _ (holds_loaded g r ds)).
  rewrite label_statistic_raise; [reflexivity|].
  now apply nodup_small.
Qed.

Lemma single_group_run_fails_first_witness :
  runPermutationTest "Group" 20000
    (mkWorld (frame_of "Group" "Result" []) [1]%nat)
  = (Raise IndexError, mkWorld (frame_of "Group" "Result" []) [1]%nat).
Proof.
  apply (single_group_run_fails_first "Group" "Result" [] 20000).
  - reflexivity.
  - vm_compute. lia.
Defined.

(** X12.  With a group label that names no column of the frame, the
    statistic fails with a key error for that label, and so does a run,
    before any trial: the frame and the random state are left as they
    were. *)
Theorem missing_column_statistic (f : DataFrame) (key : string) (R : Z)
  (rs : rng) :
  has_col f key = false ->
  difference_of_means_abs f key = Raise (KeyError key)
  /\ runPermutationTest key R (mkWorld f rs)
     = (Raise (KeyError key), mkWorld f rs).
Proof.
  intros H.
  assert (Hd : difference_of_means_abs f key = Raise (KeyError key)).
  { unfold difference_of_means_abs, groupby_mean.
    now rewrite (getitem_missing f key H). }
  split; [exact Hd|].
  rewrite runPermutationTest_unfold. cbn [bta_df]. now rewrite Hd.
Qed.

Lemma missing_column_statistic_witness :
  difference_of_means_abs (frame_of "Group" "Result" scenario) "Arm"
  = Raise (KeyError "Arm")
  /\ runPermutationTest "Arm" 5
       (mkWorld (frame_of "Group" "Result" scenario) [2]%nat)
     = (Raise (KeyError "Arm"),
        mkWorld (frame_of "Group" "Result" scenario) [2]%nat).
Proof.
  apply (missing_column_statistic (frame_of "Group" "Result" scenario)).
  reflexivity.
Defined.

(** X13.  With a group label that names no column of the frame (and is not
    a name [reset_index] gives the old index), a trial fails with a key
    error for that label before it writes anything: the frame is left as it
    was, but the random draws of the shuffle are consumed. *)
Theorem missing_column_trial (f : DataFrame) (key : string) (rs : rng) :
  has_col f key = false ->
  String.eqb key "index" = false -> String.eqb key "level_0" = false ->
  has_col f "index" && has_col f "level_0" = false ->
  one_simulated_difference key (mkWorld f rs)
  = (Raise (KeyError key),
     mkWorld f (snd (sample_locs (shape0 f) rs))).
Proof.
  intros Hk Hi Hl Hidx.
  unfold one_simulated_difference, shuffled_frame, bind, get_df, sample,
    lift, set_df.
  cbn [bta_df random_state].
  destruct (sample_locs (shape0 f) rs) as [locs rs'].
  assert (Hget : getitem (take locs f) key = Raise (KeyError key))
    by (apply getitem_missing; now rewrite has_col_take).
  unfold reset_index. rewrite !has_col_take.
  destruct (has_col f "index"); cbn [negb].
  - cbn [andb] in Hidx. rewrite Hidx. cbn [negb getitem].
    rewrite (String.eqb_sym "level_0" key), Hl, Hget. reflexivity.
  - cbn [getitem].
    rewrite (String.eqb_sym "index" key), Hi, Hget. reflexivity.
Qed.

Lemma missing_column_trial_witness :
  one_simulated_difference "Arm"
    (mkWorld (frame_of "Group" "Result" scenario) [2]%nat)
  = (Raise (KeyError "Arm"),
     mkWorld (frame_of "Group" "Result" scenario)
       (snd (sample_locs (shape0 (frame_of "Group" "Result" scenario))
               [2]%nat))).
Proof.
  apply (missing_column_trial (frame_of "Group" "Result" scenario) "Arm").
  - reflexivity.
  - reflexivity.
  - reflexivity.
  - reflexivity.
Defined.

(** X14.  The group label [index] on a frame without such a column is
    found in the sampled frame, whose old index [reset_index] has made a
    column of that name: the trial writes the sampled row positions into
    the caller's frame as [Shuffled Label] and only then fails, with a key
    error, at [drop]. *)
Theorem index_label_trial (f : DataFrame) (rs : rng) :
  has_col f "index" = false ->
  one_simulated_difference "index" (mkWorld f rs)
  = (Raise (KeyError "index"),
     mkWorld
       (setitem f "Shuffled Label"
          (NumCol (map (fun i => inject_Z (Z.of_nat i))
                       (fst (sample_locs (shape0 f) rs)))))
       (snd (sample_locs (shape0 f) rs))).
Proof.
  intros Hi.
  unfold one_simulated_difference, shuffled_frame, bind, get_df, sample,
    lift, set_df.
  cbn [bta_df random_state].
  destruct (sample_locs (shape0 f) rs) as [locs rs'].
  unfold reset_index. rewrite has_col_take, Hi.
  cbn [negb getitem]. rewrite String.eqb_refl.
  cbn [bta_df random_state].
  unfold drop. rewrite has_col_setitem, Hi. reflexivity.
Qed.

Lemma index_label_trial_witness :
  one_simulated_difference "index"
    (mkWorld (frame_of "Group" "Result" control_treatment) [1; 2]%nat)
  = (Raise (KeyError "index"),
     mkWorld
       (setitem (frame_of "Group" "Result" control_treatment)
          "Shuffled Label"
          (NumCol (map (fun i => inject_Z (Z.of_nat i))
             (fst (sample_locs
                     (shape0 (frame_of "Group" "Result" control_treatment))
                     [1; 2]%nat)))))
       (snd (sample_locs
               (shape0 (frame_of "Group" "Result" control_treatment))
               [1; 2]%nat))).
Proof.
  apply (index_label_trial (frame_of "Group" "Result" control_treatment)).
  reflexivity.
Defined.

(** X15.  The loop composes: [n + m] repetitions are [n] repetitions
    followed by [m] more that go on from the list, the frame and the random
    state the first [n] left, and a failure among the first [n] ends the
    loop there. *)
Theorem simulate_split (g : string) (n m : nat) (acc : list Q) (w : world) :
  simulate (n + m) g acc w
  = (differences <- simulate n g acc ;; simulate m g differences) w.
Proof.
  revert acc w. induction n as [|n IH]; intros acc w; [reflexivity|].
  cbn [Nat.add simulate]. unfold bind.
  destruct (one_simulated_difference g w) as [[d|e] w1]; [|reflexivity].
  rewrite IH. reflexivity.
Qed.

(** X16.  After a run with at least one repetition on a dataset with two
    groups or more, the caller's frame is the loaded frame with exactly one
    more column, [Shuffled Label], holding a permutation of the group
    labels: the trials overwrite that column and add no other. *)
Theorem run_leaves_one_column (g r : string) (ds : Dataset) (f : DataFrame)
  (rs : rng) (R : Z) :
  names_ok g r = true -> holds g r ds f ->
  (2 <= n_groups ds)%nat -> (0 < R)%Z ->
  exists sl,
    bta_df (snd (runPermutationTest g R (mkWorld f rs)))
    = relabelled g r ds sl
    /\ Permutation sl (labels ds).
Proof.
  intros Hn Hf Hg HR.
  destruct (nodup_two (labels ds) Hg) as (a & b & Ha & Hb & Hab).
  rewrite runPermutationTest_unfold. cbn [bta_df].
  rewrite (observed_eq g r Hn ds f Hf).
  destruct (label_statistic_ok (labels ds) (outcomes ds) a b Ha Hb Hab)
    as [obs ->].
  destruct (Z.to_nat R) as [|n] eqn:HRn; [lia|].
  destruct (simulate (S n) g [] (mkWorld f rs)) as [res w'] eqn:Hs.
  pose proof (simulate_written g r ds n Hn [] f rs res w' Hf Hs) as Hw.
  destruct res as [diffs|e]; [|exact Hw].
  destruct (empirical_P diffs obs R); exact Hw.
Qed.

Lemma run_leaves_one_column_witness :
  exists sl,
    bta_df (snd (runPermutationTest "Group" 3
                   (mkWorld (frame_of "Group" "Result" scenario) [5]%nat)))
    = relabelled "Group" "Result" scenario sl
    /\ Permutation sl (labels scenario).
Proof.
  apply (run_leaves_one_column "Group" "Result" scenario).
  - reflexivity.
  - apply holds_loaded.
  - vm_compute. lia.
  - lia.
Defined.

(** X17.  For a positive repetition count the P-value the code computes
    does not decrease when the observed statistic increases. *)
Theorem empirical_P_monotone (differences : list Q) (o1 o2 : Q) (R : Z) :
  (0 < R)%Z -> o1 <= o2 ->
  exists p1 p2,
    empirical_P differences o1 R = Ok p1
    /\ empirical_P differences o2 R = Ok p2
    /\ p1 <= p2.
Proof.
  intros HR Ho. unfold empirical_P.
  destruct (Z.eqb_spec R 0) as [->|_]; [lia|].
  eexists _, _. split; [reflexivity|]. split; [reflexivity|].
  pose proof (count_le_mono differences o1 o2 Ho) as Hc.
  assert (HRq : 0 < inject_Z R)
    by (change 0 with (inject_Z 0); rewrite <- Zlt_Qlt; exact HR).
  unfold Qdiv. apply Qmult_le_compat_r.
  - rewrite <- Zle_Qle. lia.
  - apply Qlt_le_weak, Qinv_lt_0_compat, HRq.
Qed.

Lemma empirical_P_monotone_witness :
  exists p1 p2,
    empirical_P [0; 1 # 2; 1] (1 # 4) 3 = Ok p1
    /\ empirical_P [0; 1 # 2; 1] (3 # 4) 3 = Ok p2
    /\ p1 <= p2.
Proof.
  apply (empirical_P_monotone [0; 1 # 2; 1] (1 # 4) (3 # 4) 3).
  - lia.
  - vm_compute. discriminate.
Defined.

(** X18.  When the list holds as many simulated statistics as the positive
    repetition count, the P-value the code computes and the proportion of
    simulated statistics that are at least the observed one add up to 1
    plus the proportion of ties. *)
Theorem empirical_P_complement (differences : list Q) (obs : Q) (R : Z) :
  (0 < R)%Z -> Z.of_nat (length differences) = R ->
  exists p,
    empirical_P differences obs R = Ok p
    /\ p + proportion_at_least differences obs R
       == 1 + inject_Z (Z.of_nat (ties differences obs)) / inject_Z R.
Proof.
  intros HR Hlen. unfold empirical_P, proportion_at_least.
  destruct (Z.eqb_spec R 0) as [->|_]; [lia|].
  eexists. split; [reflexivity|].
  pose proof (count_le_ge differences obs) as Hc.
  set (a := count_nonzero (map (fun d => Qle_bool d obs) differences)) in *.
  set (b := count_nonzero (map (fun d => Qle_bool obs d) differences)) in *.
  set (t := ties differences obs) in *.
  assert (Hq : inject_Z (Z.of_nat a) + inject_Z (Z.of_nat b)
               == inject_Z R + inject_Z (Z.of_nat t)).
  { assert (Hz : (Z.of_nat a + Z.of_nat b = R + Z.of_nat t)%Z)
      by (clearbody a b t; lia).
    rewrite <- !inject_Z_plus, Hz. reflexivity. }
  assert (HRq : ~ inject_Z R == 0).
  { intros H. change 0 with (inject_Z 0) in H.
    rewrite inject_Z_injective in H. lia. }
  setoid_replace (inject_Z (Z.of_nat a) / inject_Z R
                  + inject_Z (Z.of_nat b) / inject_Z R)
    with ((inject_Z (Z.of_nat a) + inject_Z (Z.of_nat b)) / inject_Z R)
    by (field; exact HRq).
  rewrite Hq. field. exact HRq.
Qed.

Lemma empirical_P_complement_witness :
  exists p,
    empirical_P [0; 1 # 2; 1] (1 # 2) 3 = Ok p
    /\ p + proportion_at_least [0; 1 # 2; 1] (1 # 2) 3
       == 1 + inject_Z (Z.of_nat (ties [0; 1 # 2; 1] (1 # 2))) / inject_Z 3.
Proof.
  apply (empirical_P_complement [0; 1 # 2; 1] (1 # 2) 3).
  - lia.
  - reflexivity.
Defined.

(** X19.  When the observed statistic is at least every simulated one, the
    most extreme observation there can be, the P-value the code computes is
    1. *)
Theorem empirical_P_one_at_maximum (differences : list Q) (obs : Q) (R : Z) :
  (0 < R)%Z -> Z.of_nat (length differences) = R ->
  Forall (fun d => d <= obs) differences ->
  exists p, empirical_P differences obs R = Ok p /\ p == 1.
Proof.
  intros HR Hlen Hall. unfold empirical_P.
  destruct (Z.eqb_spec R 0) as [->|_]; [lia|].
  eexists. split; [reflexivity|].
  rewrite (count_le_all differences obs Hall), Hlen.
  field. intros H. change 0 with (inject_Z 0) in H.
  rewrite inject_Z_injective in H. lia.
Qed.

Lemma empirical_P_one_at_maximum_witness :
  exists p, empirical_P [0; 1 # 2; 1] 1 3 = Ok p /\ p == 1.
Proof.
  apply (empirical_P_one_at_maximum [0; 1 # 2; 1] 1 3).
  - lia.
  - reflexivity.
  - repeat constructor; vm_compute; discriminate.
Defined.


